(** * A shallow embedding of [@abacollection/web] ([src/index.js])

    The module exports one class, [Web].  Its constructor merges a table of
    defaults with the caller's configuration, attaches a fixed sequence of
    Koa middleware (each guarded by a configuration flag), creates the
    transport, and exposes [listen] and [close].

    JavaScript values are embedded as the inductive [value]; objects are
    finite maps from property names to values.  The third-party packages the
    file requires are gathered in the record [platform]: the constructor is
    modelled once and for all of their possible behaviours. *)

From Stdlib Require Import ZArith String Ascii List Bool Lia DecimalString DecimalNat.
From stdpp Require Import base option gmap strings list.
Import ListNotations.
Open Scope Z_scope.
Open Scope string_scope.

(** ** JavaScript values *)

#[warnings="-register-all"]
Inductive value : Type :=
| VUndefined
| VNull
| VBool (b : bool)
| VNum (n : Z)                      (* the numerals of the source are integers *)
| VStr (s : string)
| VArr (xs : list value)
| VObj (o : gmap string value)
| VFun (f : func)
with func : Type :=
| GenSid                            (* the [genSid] of the defaults table *)
| BodyMethod                        (* the getter in the default [methodOverride] *)
| InvalidTokenMessage               (* [(ctx) => ctx.request.t('Invalid CSRF token')] *)
| Closure (id : string) (uses : list value) (ret : value).
  (* a caller-supplied function: [uses] are the values it hands to [app.use]
     when it is called with the application, [ret] is what it returns *)

(** Object literals. *)
Definition obj (kvs : list (string * value)) : value :=
  VObj (list_to_map kvs).

(** [ToBoolean]. *)
Definition truthy (v : value) : bool :=
  match v with
  | VUndefined | VNull => false
  | VBool b => b
  | VNum n => negb (Z.eqb n 0)
  | VStr s => negb (String.eqb s "")
  | VArr _ | VObj _ | VFun _ => true
  end.

(** [a || b] and [c ? a : b] on values. *)
Definition js_or (a b : value) : value := if truthy a then a else b.

(** [Array.isArray(v) && v.length > 0]. *)
Definition nonempty_array (v : value) : bool :=
  match v with
  | VArr (_ :: _) => true
  | _ => false
  end.

(** [_.isFunction]. *)
Definition isFunction (v : value) : bool :=
  match v with VFun _ => true | _ => false end.

(** Strict equality with a string literal: [v === s]. *)
Definition strict_eq_str (v : value) (s : string) : bool :=
  match v with VStr t => String.eqb t s | _ => false end.

(** ** Errors and results *)

Record js_error : Type := mk_error {
  err_name : string;
  err_message : string;
  err_stack : option string;
  err_status : option Z;             (* [error.status]: absent or an integer *)
  err_boom : option Z                (* [error.output.statusCode] of a Boom error *)
}.

Definition TypeError (msg : string) : js_error :=
  mk_error "TypeError" msg None None None.

Inductive result (A : Type) : Type :=
| Ok (a : A)
| Throw (e : js_error).
Arguments Ok {A} a.
Arguments Throw {A} e.

(** Property read [v.k]: reading a property of [undefined] or [null] throws;
    of the other values only objects carry the properties the source reads. *)
Definition get_prop (v : value) (k : string) : result value :=
  match v with
  | VUndefined | VNull =>
      Throw (TypeError ("Cannot read properties of undefined (reading '" ++ k ++ "')"))
  | VObj o => Ok (default VUndefined (o !! k))
  | _ => Ok VUndefined
  end.

(** ** Strings *)

(** A string value is kept as its UTF-8 bytes; JavaScript sees it as a
    sequence of UTF-16 code units.  [code_points] decodes the bytes (a
    byte that starts no well-formed sequence reads as U+FFFD; a surrogate
    written in three bytes is kept, so that a lone surrogate has a
    spelling). *)
Definition continuation (b : N) : bool := ((128 <=? b) && (b <? 192))%N.

Fixpoint code_points (s : string) : list N :=
  match s with
  | EmptyString => []
  | String a r =>
      let b0 := N_of_ascii a in
      if (b0 <? 128)%N then b0 :: code_points r
      else
        match r with
        | EmptyString => [65533%N]
        | String b r1 =>
            let b1 := N_of_ascii b in
            if ((194 <=? b0) && (b0 <? 224))%N && continuation b1
            then ((b0 - 192) * 64 + (b1 - 128))%N :: code_points r1
            else
              match r1 with
              | EmptyString => 65533%N :: code_points r
              | String c r2 =>
                  let b2 := N_of_ascii c in
                  let cp3 := ((b0 - 224) * 4096 + (b1 - 128) * 64 + (b2 - 128))%N in
                  if ((224 <=? b0) && (b0 <? 240))%N && continuation b1
                     && continuation b2 && (2048 <=? cp3)%N
                  then cp3 :: code_points r2
                  else
                    match r2 with
                    | EmptyString => 65533%N :: code_points r
                    | String d r3 =>
                        let b3 := N_of_ascii d in
                        let cp4 := ((b0 - 240) * 262144 + (b1 - 128) * 4096
                                    + (b2 - 128) * 64 + (b3 - 128))%N in
                        if ((240 <=? b0) && (b0 <? 248))%N && continuation b1
                           && continuation b2 && continuation b3
                           && ((65536 <=? cp4) && (cp4 <=? 1114111))%N
                        then cp4 :: code_points r3
                        else 65533%N :: code_points r
                    end
              end
        end
  end.

(** The UTF-16 code units of a string: what [charCodeAt] and the indices
    of an object spread see. *)
Definition code_units (s : string) : list N :=
  flat_map (fun cp =>
              if (cp <? 65536)%N then [cp]
              else [(55296 + (cp - 65536) / 1024)%N; (56320 + (cp - 65536) mod 1024)%N])
           (code_points s).

(** The bytes of one code point or code unit. *)
Definition utf8 (u : N) : string :=
  if (u <? 128)%N then String (ascii_of_N u) ""
  else if (u <? 2048)%N then
    String (ascii_of_N (192 + u / 64)) (String (ascii_of_N (128 + u mod 64)) "")
  else if (u <? 65536)%N then
    String (ascii_of_N (224 + u / 4096))
      (String (ascii_of_N (128 + (u / 64) mod 64))
         (String (ascii_of_N (128 + u mod 64)) ""))
  else
    String (ascii_of_N (240 + u / 262144))
      (String (ascii_of_N (128 + (u / 4096) mod 64))
         (String (ascii_of_N (128 + (u / 64) mod 64))
            (String (ascii_of_N (128 + u mod 64)) ""))).

(** The code units [is-string-blank] counts as blank:
    [(a < 9 || a > 13) && a !== 32 && a !== 133 && a !== 160 && a !== 5760
     && a !== 6158 && (a < 8192 || a > 8205) && a !== 8232 && a !== 8233
     && a !== 8239 && a !== 8287 && a !== 8288 && a !== 12288 && a !== 65279]
    makes a string not blank. *)
Definition blank_code_unit (a : N) : bool :=
  (((9 <=? a) && (a <=? 13)) || (a =? 32) || (a =? 133) || (a =? 160)
   || (a =? 5760) || (a =? 6158) || ((8192 <=? a) && (a <=? 8205))
   || (a =? 8232) || (a =? 8233) || (a =? 8239) || (a =? 8287)
   || (a =? 8288) || (a =? 12288) || (a =? 65279))%N.

(** [is-string-blank]: every code unit is blank. *)
Definition blank (s : string) : bool :=
  forallb blank_code_unit (code_units s).

(** [is-string-and-not-blank]: [typeof v === 'string' && !isStringBlank(v)]. *)
Definition isSANB (v : value) : bool :=
  match v with VStr s => negb (blank s) | _ => false end.

(** The name of the array index [i] as a property. *)
Definition index_key (i : nat) : string :=
  NilEmpty.string_of_uint (Nat.to_uint i).

(** The object with the entries of [xs] under the indices from [k] on. *)
Fixpoint indexed (k : nat) (xs : list value) : gmap string value :=
  match xs with
  | [] => ∅
  | x :: xs' => <[index_key k := x]> (indexed (S k) xs')
  end.

(** Own enumerable properties copied by an object spread [{...v}] (and
    by [_.extend] from a source [v]): the entries of an object, the
    elements of an array and the code units of a string under their
    indices, nothing for the other values. *)
Definition spread (v : value) : gmap string value :=
  match v with
  | VObj o => o
  | VArr xs => indexed 0 xs
  | VStr s => indexed 0 (map (fun u => VStr (utf8 u)) (code_units s))
  | _ => ∅
  end.

(** [s.split(',')]. *)
Fixpoint split_comma (s : string) : list string :=
  match s with
  | EmptyString => [""]
  | String c s' =>
      if Ascii.eqb c ","%char then "" :: split_comma s'
      else match split_comma s' with
           | [] => [String c ""]
           | w :: ws => String c w :: ws
           end
  end.

(** ** The packages and the process the module runs in *)

Record ctx : Type := mk_ctx {
  ctx_path : string;
  ctx_logger : option string         (* [ctx.logger], named when attached *)
}.

Inductive promise (A : Type) : Type :=
| Resolved (a : A)
| Rejected (e : js_error).
Arguments Resolved {A} a.
Arguments Rejected {A} e.

Record platform : Type := mk_platform {
  env : gmap string string;                      (* [process.env] at construction *)
  load_env : gmap string string;                 (* [process.env] when the module loads *)
  path_resolve : string -> string;               (* [path.resolve] *)
  sharedConfig : string -> gmap string value;    (* [@ladjs/shared-config] *)
  boolean : value -> bool;                       (* [boolean] *)
  multimatch : value -> value -> result value;   (* [multimatch(paths, patterns)] *)
  cryptoRandomString_async :                     (* [crypto-random-string], per draw *)
    nat -> gmap string value -> promise string;
  ephemeral_port : list Z -> Z;                  (* the port the system picks for port 0 *)
  ratelimit_run :                                (* [ratelimit(opts)(ctx, next)] *)
    gmap string value -> ctx -> result unit;
  csrf_run :                                     (* [new CSRF(opts)(ctx, next)] *)
    gmap string value -> ctx -> result unit;
  ctx_throw : js_error -> js_error               (* what [ctx.throw(error)] throws *)
}.

Definition getenv (P : platform) (k : string) : value :=
  match env P !! k with Some s => VStr s | None => VUndefined end.

(** [process.env.k] as the module-level constants read it, once, when
    the module is first required. *)
Definition getenv_at_load (P : platform) (k : string) : value :=
  match load_env P !! k with Some s => VStr s | None => VUndefined end.

(** [ms('30d')] and [ms('1y')], in milliseconds. *)
Definition ms (s : string) : Z :=
  if String.eqb s "30d" then 30 * 24 * 60 * 60 * 1000
  else if String.eqb s "1y" then 31557600000
  else 0.

(** [zlib.constants]. *)
Definition BROTLI_PARAM_MODE : string := "0".
Definition BROTLI_MODE_TEXT : Z := 1.
Definition BROTLI_PARAM_QUALITY : string := "1".

(** ** Module-level constants *)

Definition defaultSrc (P : platform) : value :=
  if isSANB (getenv_at_load P "WEB_HOST") then
    match getenv_at_load P "WEB_HOST" with
    | VStr h =>
        VArr [VStr "'self'"; VStr "data:"; VStr ("*." ++ h); VStr ("*." ++ h ++ ":*");
              VStr h; VStr (h ++ ":*")]
    | _ => VNull
    end
  else VNull.

Definition reportUri (P : platform) : value :=
  if isSANB (getenv_at_load P "WEB_URL") then
    match getenv_at_load P "WEB_URL" with
    | VStr u => VStr (u ++ "/report")
    | _ => VNull
    end
  else VNull.

(** [[...v, x1, ..., xn]] for an array [v]. *)
Definition arr_with (v : value) (xs : list value) : value :=
  match v with VArr l => VArr (l ++ xs) | _ => VArr xs end.

(** ** The defaults of the constructor *)

Definition default_helmet (P : platform) : value :=
  obj [
    ("contentSecurityPolicy",
      if truthy (defaultSrc P) then
        obj [("directives", obj [
          ("defaultSrc", defaultSrc P);
          ("connectSrc", arr_with (defaultSrc P) [VStr "https://www.google-analytics.com"]);
          ("fontSrc", defaultSrc P);
          ("imgSrc", defaultSrc P);
          ("styleSrc", arr_with (defaultSrc P) [VStr "'unsafe-inline'"]);
          ("scriptSrc", arr_with (defaultSrc P)
             [VStr "https://www.googletagmanager.com"; VStr "https://unpkg.com";
              VStr "'unsafe-inline'"]);
          ("reportUri", if truthy (reportUri P) then reportUri P else VNull)])]
      else VNull);
    ("expectCt", obj [("enforce", VBool true);
                      ("maxAge", VNum (ms "30d" / 1000));
                      ("reportUri", reportUri P)]);
    ("hsts", obj [("maxAge", VNum (ms "1y" / 1000));
                  ("includeSubDomains", VBool true);
                  ("preload", VBool true)]);
    ("referrerPolicy", obj [("policy", VStr "same-origin")]);
    ("xssFilter", obj [("reportUri", reportUri P)])
  ].

Definition own_defaults (P : platform) : gmap string value :=
  list_to_map [
    ("meta", obj []);
    ("views", obj [("root", VStr (path_resolve P "./app/views"));
                   ("locals", obj []);
                   ("options", obj [("extension", VStr "pug")])]);
    ("csrf", obj []);
    ("csrfIgnoredGlobs", VArr [VStr "/report"]);
    ("rateLimitIgnoredGlobs", VArr [VStr "/report"]);
    ("sessionKeys",
       match getenv P "SESSION_KEYS" with
       | VStr s => if truthy (VStr s) then VArr (map VStr (split_comma s))
                   else VArr [VStr "lad"]
       | _ => VArr [VStr "lad"]
       end);
    ("cookiesKey", js_or (getenv P "COOKIES_KEY") (VStr "lad.sid"));
    ("favicon", obj [("path", VStr (path_resolve P "./assets/img/favicon.ico"));
                     ("options", obj [])]);
    ("buildDir", VStr (path_resolve P "./build"));
    ("serveStatic", obj []);
    ("redirectLoop", obj []);
    ("koaCash", VBool false);
    ("cacheResponses", VBool false);
    ("genSid", VFun GenSid);
    ("methodOverride", VArr [VFun BodyMethod]);
    ("helmet", default_helmet P);
    ("compress", obj [("br", obj [("params",
        obj [(BROTLI_PARAM_MODE, VNum BROTLI_MODE_TEXT);
             (BROTLI_PARAM_QUALITY, VNum 4)])])])
  ].

(** [{ ...sharedConfig('WEB'), <own defaults>, ...config }]: a later spread
    overwrites an earlier one key by key. *)
Definition merge_config (P : platform) (config : gmap string value)
  : gmap string value :=
  config ∪ (own_defaults P ∪ sharedConfig P "WEB").

(** [this.config.k]. *)
Definition cfg_get (cfg : gmap string value) (k : string) : value :=
  default VUndefined (cfg !! k).

(** ** The application under construction *)

(** What [app.use] receives.  The constructors name the package whose
    factory built the middleware and keep the options it was built from;
    [Custom] is a function supplied by the caller. *)
Inductive middleware : Type :=
| RequestReceived
| TimeoutMw (opts : value)
| ResponseTime
| RequestId
| CabinMw
| BasicAuth (opts : value)
| RateLimitGuard
| RemoveTrailingSlashes
| Helmet (opts : value)
| I18nMiddleware (opts : gmap string value)
| I18nRedirect (opts : gmap string value)
| ConditionalGet
| Etag
| Cors (opts : value)
| Compress (opts : value)
| KoaCash (opts : value)
| CacheResponsesMw (opts : value)
| Favicon (path opts : value)
| ServeStatic (dir opts : value)
| Views (root opts : value)
| IsAjax
| MetaMw (opts : value)
| StateHelperMw (locals : value)
| Session (opts : gmap string value)
| RedirectLoopMw (opts : value)
| Flash
| BodyParser
| Json
| MethodOverrideMw (getters : list value)
| CsrfGuard
| StoreIPAddressMw (opts : gmap string value)
| Koa404Handler
| Custom (f : func).

Record app : Type := mk_app {
  app_middleware : list middleware;
  app_keys : value;
  app_proxy : bool;
  app_cache : bool
}.

(** [new Koa()]. *)
Definition new_koa : app := mk_app [] VUndefined false false.

(** The constructor mutates the application and may throw: a state and
    error monad over [app]. *)
Definition M (A : Type) : Type := app -> result (A * app).

Definition ret {A} (a : A) : M A := fun s => Ok (a, s).

Definition bind {A B} (m : M A) (k : A -> M B) : M B :=
  fun s => match m s with
           | Ok (a, s') => k a s'
           | Throw e => Throw e
           end.

Definition throw {A} (e : js_error) : M A := fun _ => Throw e.

Definition lift {A} (r : result A) : M A :=
  fun s => match r with Ok a => Ok (a, s) | Throw e => Throw e end.

Definition when (c : bool) (m : M unit) : M unit :=
  if c then m else ret tt.

Declare Scope js_scope.
Delimit Scope js_scope with js.
Notation "x <- m ;; k" := (bind m (fun x => k))
  (at level 100, m at next level, right associativity) : js_scope.
Notation "m ;; k" := (bind m (fun _ => k))
  (at level 100, right associativity) : js_scope.
Open Scope js_scope.

(** [app.use(fn)] with a middleware built by one of the packages. *)
Definition app_use (m : middleware) : M unit :=
  fun s => Ok (tt, mk_app (app_middleware s ++ [m]) (app_keys s) (app_proxy s) (app_cache s)).

(** [app.use(v)] with a caller-supplied value: Koa throws unless it is a
    function. *)
Definition app_use_value (v : value) : M unit :=
  match v with
  | VFun f => app_use (Custom f)
  | _ => throw (TypeError "middleware must be a function!")
  end.

Fixpoint app_use_values (vs : list value) : M unit :=
  match vs with
  | [] => ret tt
  | v :: vs' => app_use_value v ;; app_use_values vs'
  end.

Definition set_keys (v : value) : M unit :=
  fun s => Ok (tt, mk_app (app_middleware s) v (app_proxy s) (app_cache s)).

Definition set_proxy (b : bool) : M unit :=
  fun s => Ok (tt, mk_app (app_middleware s) (app_keys s) b (app_cache s)).

Definition set_cache (b : bool) : M unit :=
  fun s => Ok (tt, mk_app (app_middleware s) (app_keys s) (app_proxy s) b).

(** [f(app)] for a hook [f]. *)
Definition call_with_app (f : func) : M unit :=
  match f with
  | Closure _ uses _ => app_use_values uses
  | BodyMethod =>
      (* [const { _method } = request.body] with [request.body] undefined *)
      throw (TypeError "Cannot destructure property '_method' of 'request.body' as it is undefined.")
  | InvalidTokenMessage =>
      throw (TypeError "Cannot read properties of undefined (reading 't')")
  | GenSid => ret tt
  end.

(** [f()]: the value a function returns when called without arguments.  A
    promise is an object none of whose properties the source reads. *)
Definition call0 (f : func) : result value :=
  match f with
  | Closure _ _ r => Ok r
  | GenSid => Ok (VObj ∅)
  | BodyMethod => Throw (TypeError "Cannot read properties of undefined (reading 'body')")
  | InvalidTokenMessage =>
      Throw (TypeError "Cannot read properties of undefined (reading 'request')")
  end.

(** [v()] for an arbitrary value. *)
Definition call_value (v : value) (what : string) : result value :=
  match v with
  | VFun f => call0 f
  | _ => Throw (TypeError (what ++ " is not a function"))
  end.

(** The arguments of a call [f(...v)]: [v] must be iterable. *)
Definition spread_args (v : value) (what : string) : result (list value) :=
  match v with
  | VArr xs => Ok xs
  | VStr s => Ok (map (fun cp => VStr (utf8 cp)) (code_points s))
  | _ => Throw (TypeError (what ++ " is not iterable"))
  end.

(** [_.extend(a, b)]: the properties of [b] assigned over those of [a]. *)
Definition lodash_extend (a b : value) : value :=
  VObj (spread b ∪ spread a).

(** Handles on objects whose contents the constructor never inspects. *)
Definition redis_client : value := VObj ∅.
Definition cabin_logger : value := VObj ∅.
Definition redis_store : value := VObj ∅.

(** ** The middleware pipeline of the constructor

    One definition per commented block of the source, in source order. *)

Section Assembly.
Variable P : platform.
Variable cfg : gmap string value.   (* [this.config] *)

Definition setup_flags : M unit :=
  set_proxy (boolean P (getenv P "TRUST_PROXY")) ;;
  locals <- lift (get_prop (cfg_get cfg "views") "locals") ;;
  cache <- lift (get_prop locals "cache") ;;
  set_cache (boolean P cache).

Definition use_timeout : M unit :=
  when (truthy (cfg_get cfg "timeout"))
       (app_use (TimeoutMw (cfg_get cfg "timeout"))).

Definition run_hook (name : string) : M unit :=
  match cfg_get cfg name with
  | VFun f => call_with_app f
  | _ => ret tt
  end.

Definition use_auth : M unit :=
  when (truthy (cfg_get cfg "auth")) (app_use (BasicAuth (cfg_get cfg "auth"))).

Definition use_rate_limit : M unit :=
  when (truthy (cfg_get cfg "rateLimit")) (app_use RateLimitGuard).

Definition use_helmet : M unit :=
  when (truthy (cfg_get cfg "helmet")) (app_use (Helmet (cfg_get cfg "helmet"))).

Definition use_i18n : M unit :=
  let i18n := cfg_get cfg "i18n" in
  when (truthy i18n)
    (c <- lift (get_prop i18n "config") ;;
     if truthy c then
       mw <- lift (get_prop i18n "middleware") ;;
       app_use_value mw ;;
       rd <- lift (get_prop i18n "redirect") ;;
       app_use_value rd
     else
       let opts := <["logger" := cabin_logger]> (spread i18n) in
       app_use (I18nMiddleware opts) ;;
       app_use (I18nRedirect opts)).

Definition use_cors : M unit :=
  when (truthy (cfg_get cfg "cors")) (app_use (Cors (cfg_get cfg "cors"))).

Definition use_compress : M unit :=
  when (truthy (cfg_get cfg "compress")) (app_use (Compress (cfg_get cfg "compress"))).

Definition use_koa_cash : M unit :=
  when (truthy (cfg_get cfg "koaCash")) (app_use (KoaCash (cfg_get cfg "koaCash"))).

Definition use_cache_responses : M unit :=
  when (truthy (cfg_get cfg "cacheResponses"))
       (app_use (CacheResponsesMw (cfg_get cfg "cacheResponses"))).

Definition use_favicon : M unit :=
  let favicon := cfg_get cfg "favicon" in
  when (truthy favicon)
    (p <- lift (get_prop favicon "path") ;;
     o <- lift (get_prop favicon "options") ;;
     app_use (Favicon p o)).

Definition use_serve_static : M unit :=
  when (truthy (cfg_get cfg "buildDir") && truthy (cfg_get cfg "serveStatic"))
       (app_use (ServeStatic (cfg_get cfg "buildDir") (cfg_get cfg "serveStatic"))).

Definition use_views : M unit :=
  let views := cfg_get cfg "views" in
  root <- lift (get_prop views "root") ;;
  options <- lift (get_prop views "options") ;;
  locals <- lift (get_prop views "locals") ;;
  app_use (Views root (lodash_extend options locals)).

Definition use_meta : M unit :=
  when (truthy (cfg_get cfg "meta")) (app_use (MetaMw (cfg_get cfg "meta"))).

Definition use_state_helper : M unit :=
  locals <- lift (get_prop (cfg_get cfg "views") "locals") ;;
  app_use (StateHelperMw locals).

Definition session_options : gmap string value :=
  spread (cfg_get cfg "session")
  ∪ list_to_map [("store", redis_store);
                 ("key", cfg_get cfg "cookiesKey");
                 ("cookie", cfg_get cfg "cookies");
                 ("genSid", cfg_get cfg "genSid")].

Definition use_session : M unit :=
  set_keys (cfg_get cfg "sessionKeys") ;;
  app_use (Session session_options).

Definition use_redirect_loop : M unit :=
  when (truthy (cfg_get cfg "redirectLoop"))
       (app_use (RedirectLoopMw (cfg_get cfg "redirectLoop"))).

Definition use_method_override : M unit :=
  when (truthy (cfg_get cfg "methodOverride"))
    (getters <- lift (spread_args (cfg_get cfg "methodOverride")
                                  "this.config.methodOverride") ;;
     app_use (MethodOverrideMw getters)).

Definition csrf_enabled : bool :=
  truthy (cfg_get cfg "csrf") && negb (strict_eq_str (getenv P "NODE_ENV") "test").

Definition use_csrf : M unit :=
  when csrf_enabled (app_use CsrfGuard).

Definition use_passport : M unit :=
  let passport := cfg_get cfg "passport" in
  when (truthy passport)
    (i <- lift (get_prop passport "initialize") ;;
     mi <- lift (call_value i "this.config.passport.initialize") ;;
     app_use_value mi ;;
     s <- lift (get_prop passport "session") ;;
     msess <- lift (call_value s "this.config.passport.session") ;;
     app_use_value msess).

Definition use_store_ip_address : M unit :=
  let sia := cfg_get cfg "storeIPAddress" in
  when (truthy sia)
       (app_use (StoreIPAddressMw (spread sia ∪ {["logger" := cabin_logger]}))).

Definition use_routes : M unit :=
  let routes := cfg_get cfg "routes" in
  when (truthy routes)
    (rr <- lift (get_prop routes "routes") ;;
     if isFunction rr then
       r <- lift (call_value rr "this.config.routes.routes") ;;
       app_use_value r
     else app_use_value routes).

(** The body of the constructor between [new Koa()] and the creation of
    the server. *)
Definition assemble : M unit :=
  setup_flags ;;
  app_use RequestReceived ;;
  use_timeout ;;
  app_use ResponseTime ;;
  app_use RequestId ;;
  app_use CabinMw ;;
  run_hook "hookBeforeSetup" ;;
  use_auth ;;
  use_rate_limit ;;
  app_use RemoveTrailingSlashes ;;
  use_helmet ;;
  use_i18n ;;
  app_use ConditionalGet ;;
  app_use Etag ;;
  use_cors ;;
  use_compress ;;
  use_koa_cash ;;
  use_cache_responses ;;
  use_favicon ;;
  use_serve_static ;;
  use_views ;;
  app_use IsAjax ;;
  use_meta ;;
  use_state_helper ;;
  use_session ;;
  use_redirect_loop ;;
  app_use Flash ;;
  app_use BodyParser ;;
  app_use Json ;;
  use_method_override ;;
  use_csrf ;;
  use_passport ;;
  use_store_ip_address ;;
  app_use Koa404Handler ;;
  run_hook "hookBeforeRoutes" ;;
  use_routes.

(** *** The two guards the constructor writes itself *)

(** What a handler did with the request: the calls it made, in order,
    and how it completed.  A guard that returns [next()] completes as the
    rest of the pipeline does; the guards below record that call and take
    the rest of the pipeline to complete normally. *)
Inductive call : Type :=
| CallNext                                   (* [next()] *)
| CallRateLimit (opts : gmap string value)   (* [ratelimit(opts)(ctx, next)] *)
| CallCsrf (opts : gmap string value).       (* [csrf(ctx, next)] *)

(** The test both guards start with: [globs] is a non-empty array and
    [multimatch(ctx.path, globs)] returns a non-empty array. *)
Definition ignored (globs : value) (c : ctx) : result bool :=
  if nonempty_array globs then
    match multimatch P (VStr (ctx_path c)) globs with
    | Ok found => Ok (nonempty_array found)
    | Throw e => Throw e
    end
  else Ok false.

Definition rate_limit_options : gmap string value :=
  <["db" := redis_client]> (spread (cfg_get cfg "rateLimit")).

Definition rate_limit_guard (c : ctx) : list call * result unit :=
  match ignored (cfg_get cfg "rateLimitIgnoredGlobs") c with
  | Throw e => ([], Throw e)
  | Ok true => ([CallNext], Ok tt)
  | Ok false =>
      ([CallRateLimit rate_limit_options], ratelimit_run P rate_limit_options c)
  end.

Definition csrf_options : gmap string value :=
  <["invalidTokenMessage" := VFun InvalidTokenMessage]> (spread (cfg_get cfg "csrf")).

(** [Boom.forbidden(message)]. *)
Definition boom_forbidden (message : string) : js_error :=
  mk_error "Error" message None None (Some 403).

Definition with_stack (e : js_error) (stack : option string) : js_error :=
  mk_error (err_name e) (err_message e) stack (err_status e) (err_boom e).

(** The error the [catch] clause of the CSRF guard hands to [ctx.throw]. *)
Definition csrf_rewrap (err : js_error) : js_error :=
  if negb (String.eqb (err_name err) "") && String.eqb (err_name err) "ForbiddenError"
  then
    let error := boom_forbidden (err_message err) in
    match err_stack err with
    | Some st => if negb (String.eqb st "") then with_stack error (Some st) else error
    | None => error
    end
  else err.

(** The [catch] clause of the CSRF guard: [ctx.throw(error)] throws what
    Koa makes of [error]. *)
Definition csrf_rethrow (err : js_error) : js_error :=
  ctx_throw P (csrf_rewrap err).

Definition csrf_guard (c : ctx) : list call * result unit :=
  match ignored (cfg_get cfg "csrfIgnoredGlobs") c with
  | Throw e => ([], Throw e)
  | Ok true => ([CallNext], Ok tt)
  | Ok false =>
      ([CallCsrf csrf_options],
       match csrf_run P csrf_options c with
       | Ok u => Ok u
       | Throw err => Throw (csrf_rethrow err)
       end)
  end.
End Assembly.

(** *** The application-level error listener *)

Inductive level : Type := Warn | Error.

Inductive logger : Type :=
| RequestLogger (name : string)      (* [ctx.logger] *)
| Cabin.                             (* the instance built by the constructor *)

Record log_call : Type := mk_log_call {
  log_logger : logger;
  log_level : level;
  log_argument : js_error
}.

(** [error.status && error.status < 500 ? 'warn' : 'error'] *)
Definition error_level (error : js_error) : level :=
  match err_status error with
  | Some st => if negb (Z.eqb st 0) && Z.ltb st 500 then Warn else Error
  | None => Error
  end.

(** The listener registered with [app.on('error', ...)]. *)
Definition on_error (error : js_error) (c : ctx) : log_call :=
  let level := error_level error in
  match ctx_logger c with
  | Some name => mk_log_call (RequestLogger name) level error
  | None => mk_log_call Cabin level error
  end.

(** ** The server and the instance *)

Inductive transport : Type :=
| PlainHttp                          (* [http.createServer(handler)] *)
| SecureHttp2 (ssl : value).         (* [http2.createSecureServer(ssl, handler)] *)

Record server : Type := mk_server {
  srv_id : nat;                      (* the identity of the server object *)
  srv_transport : transport;
  srv_handler : list middleware
}.

(** [app.callback()] composes the middleware attached so far. *)
Definition callback (a : app) : list middleware := app_middleware a.

Record web : Type := mk_web {
  web_config : gmap string value;
  web_cacheResponses : option value;
  web_app : app;
  web_server : server;
  web_client : value
}.

(** [_.extend(this.config.views.options, ...)] assigns in place: when
    [views.options] is an object, the instance's configuration sees it
    extended. *)
Definition config_after_views (cfg : gmap string value) : gmap string value :=
  match cfg !! "views" with
  | Some (VObj vo) =>
      match vo !! "options" with
      | Some (VObj oo) =>
          <["views" :=
              VObj (<["options" :=
                        lodash_extend (VObj oo) (default VUndefined (vo !! "locals"))]> vo)]> cfg
      | _ => cfg
      end
  | _ => cfg
  end.

Definition create_server (sid : nat) (cfg : gmap string value) (a : app) : server :=
  if strict_eq_str (cfg_get cfg "protocol") "https"
  then mk_server sid (SecureHttp2 (cfg_get cfg "ssl")) (callback a)
  else mk_server sid PlainHttp (callback a).

(** [new Web(config)]; [sid] is the identity of the server object it
    allocates. *)
Definition constructor (P : platform) (sid : nat) (config : gmap string value)
  : result web :=
  let cfg := merge_config P config in
  match assemble P cfg new_koa with
  | Throw e => Throw e
  | Ok (_, a) =>
      Ok (mk_web (config_after_views cfg)
                 (if truthy (cfg_get cfg "cacheResponses")
                  then Some (cfg_get cfg "cacheResponses") else None)
                 a
                 (create_server sid cfg a)
                 redis_client)
  end.

(** ** [listen] and [close] *)

(** The sockets of the host: which server object listens on which port. *)
Definition IO (A : Type) : Type := gmap nat Z -> result (A * gmap nat Z).

Definition io_ret {A} (a : A) : IO A := fun n => Ok (a, n).

Definition io_bind {A B} (m : IO A) (k : A -> IO B) : IO B :=
  fun n => match m n with
           | Ok (a, n') => k a n'
           | Throw e => Throw e
           end.

Definition system_error (code : string) : js_error :=
  mk_error "Error" code None None None.

Definition port_in_use (n : gmap nat Z) (p : Z) : bool :=
  existsb (fun kv => Z.eqb (snd kv) p) (map_to_list n).

Fixpoint decimal (s : string) (acc : Z) : option Z :=
  match s with
  | EmptyString => Some acc
  | String c s' =>
      let d := Z.of_nat (nat_of_ascii c) - 48 in
      if (0 <=? d)%Z && (d <=? 9)%Z then decimal s' (10 * acc + d) else None
  end.

(** The port [server.listen] is asked for: [None] lets the system pick.
    Of the strings only the decimal numerals are read as ports, the
    others are refused (Node reads more numerals and takes the rest for
    pipe names). *)
Definition port_of_value (v : value) : result (option Z) :=
  let check p :=
    if Z.eqb p 0 then Ok None
    else if (0 <? p)%Z && (p <? 65536)%Z then Ok (Some p)
    else Throw (mk_error "RangeError" "ERR_SOCKET_BAD_PORT" None None None) in
  match v with
  | VUndefined | VNull => Ok None
  | VNum p => check p
  | VStr (String c s) =>
      match decimal (String c s) 0 with
      | Some p => check p
      | None => Throw (mk_error "RangeError" "ERR_SOCKET_BAD_PORT" None None None)
      end
  | _ => Throw (mk_error "RangeError" "ERR_SOCKET_BAD_PORT" None None None)
  end.

(** [server.listen(port, host, callback)], as a method of [this].  The
    sockets are told apart by port alone.  [Throw] is how the attempt ends
    when it does not bind: an error thrown by [listen] itself rejects the
    promise; a bind failure reaches Node's caller as an ['error'] event of
    the server, and the model reports the error of that event. *)
Definition server_listen (P : platform) (this : server) (args : value * value) : IO unit :=
  fun n =>
    match n !! srv_id this with
    | Some _ => Throw (system_error "ERR_SERVER_ALREADY_LISTEN")
    | None =>
        match port_of_value (fst args) with
        | Throw e => Throw e
        | Ok req =>
            let p := match req with
                     | Some p => p
                     | None => ephemeral_port P (map snd (map_to_list n))
                     end in
            if port_in_use n p then Throw (system_error "EADDRINUSE")
            else Ok (tt, <[srv_id this := p]> n)
        end
    end.

(** [server.close(callback)], as a method of [this]. *)
Definition server_close (this : server) (_ : unit) : IO unit :=
  fun n =>
    match n !! srv_id this with
    | Some _ => Ok (tt, delete (srv_id this) n)
    | None => Throw (system_error "ERR_SERVER_NOT_RUNNING")
    end.

(** [util.promisify(method)]: the same operation, settling a promise
    instead of calling back. *)
Definition promisify {T A B} (method : T -> A -> IO B) : T -> A -> IO B := method.

(** [f.bind(this)]. *)
Definition js_bind {T A B} (f : T -> A -> IO B) (this : T) : A -> IO B := f this.

(** [await p] for the promise of a call already made. *)
Definition await {A} (p : IO A) : IO A := p.

(** [await v] for a value that is not a promise. *)
Definition await_value {V} (v : V) : IO V := io_ret v.

(** [listen(port = this.config.port, host = this.config.serverHost)] *)
Definition listen (P : platform) (w : web) (port host : value) : IO unit :=
  let port := match port with VUndefined => cfg_get (web_config w) "port" | _ => port end in
  let host := match host with VUndefined => cfg_get (web_config w) "serverHost" | _ => host end in
  await (js_bind (promisify (server_listen P)) (web_server w) (port, host)).

(** [close()] *)
Definition close (w : web) : IO unit :=
  io_bind (await_value (js_bind (promisify server_close) (web_server w)))
          (fun _ => io_ret tt).

(** [close] as the specification words it: the close operation is invoked
    and its completion awaited.  Kept apart from [close], which is the
    source's. *)
Definition close_as_specified (w : web) : IO unit :=
  io_bind (await (js_bind (promisify server_close) (web_server w) tt))
          (fun _ => io_ret tt).

(** The default [genSid]: [cryptoRandomString.async({ length: 32 })],
    whatever it is called with; [draw] counts the calls made so far. *)
Definition genSid (P : platform) (draw : nat) (_ : list value) : promise string :=
  cryptoRandomString_async P draw {["length" := VNum 32]}.

(** ** A concrete platform

    Used to run the model: patterns match literally, the shared
    configuration enables rate limiting on port 3000, and the random
    strings are drawn from a counter. *)

Definition literal_multimatch (paths patterns : value) : result value :=
  match paths, patterns with
  | VStr p, VArr pats =>
      if forallb (fun pat => match pat with VStr _ => true | _ => false end) pats
      then Ok (if existsb (fun pat => strict_eq_str pat p) pats
               then VArr [VStr p] else VArr [])
      else Throw (TypeError "glob pattern string required")
  | _, _ => Ok (VArr [])
  end.

Fixpoint repeat_char (c : ascii) (n : nat) : string :=
  match n with
  | O => EmptyString
  | S n' => String c (repeat_char c n')
  end.

Definition counter_random (draw : nat) (opts : gmap string value) : promise string :=
  match opts !! "length" with
  | Some (VNum n) =>
      Resolved (repeat_char (ascii_of_nat (97 + draw mod 6)) (Z.to_nat n))
  | _ => Rejected (TypeError "Expected `length` to be a number")
  end.

Definition lower (c : ascii) : ascii :=
  let n := nat_of_ascii c in
  if (Nat.leb 65 n && Nat.leb n 90)%bool then ascii_of_nat (n + 32) else c.

Fixpoint trim_left (s : string) : string :=
  match s with
  | EmptyString => EmptyString
  | String c s' =>
      if blank_code_unit (N_of_ascii c) then trim_left s' else s
  end.

Definition reverse_string (s : string) : string :=
  string_of_list_ascii (rev (list_ascii_of_string s)).

(** [boolean]: the strings ['true'], ['t'], ['yes'], ['y'], ['on'] and
    ['1'], trimmed and in any case, the number 1 and [true]. *)
Definition sample_boolean (v : value) : bool :=
  match v with
  | VBool b => b
  | VNum n => Z.eqb n 1
  | VStr s =>
      let t := string_of_list_ascii
                 (map lower (list_ascii_of_string
                               (reverse_string (trim_left (reverse_string (trim_left s)))))) in
      existsb (String.eqb t) ["true"; "t"; "yes"; "y"; "on"; "1"]
  | _ => false
  end.

(** [ctx.throw(error)] with an error object: an error that carries no
    status is given the status 500. *)
Definition sample_ctx_throw (e : js_error) : js_error :=
  match err_status e with
  | Some st =>
      if Z.eqb st 0
      then mk_error (err_name e) (err_message e) (err_stack e) (Some 500) (err_boom e)
      else e
  | None => mk_error (err_name e) (err_message e) (err_stack e) (Some 500) (err_boom e)
  end.

(** A process whose environment was [load] when the module was required
    and is [e] when instances are constructed. *)
Definition node_process (load e : gmap string string) : platform :=
  mk_platform
    e
    load
    (fun rel => "/srv/app/" ++ rel)
    (fun _ => list_to_map [("port", VNum 3000); ("rateLimit", obj [("max", VNum 100)])])
    sample_boolean
    literal_multimatch
    counter_random
    (fun used => 49152 + Z.of_nat (length used))
    (fun _ _ => Ok tt)
    (fun _ _ => Throw (mk_error "ForbiddenError" "Invalid CSRF token" (Some "at csrf") (Some 403) None))
    sample_ctx_throw.

(** A process whose environment does not change. *)
Definition node_platform (e : gmap string string) : platform :=
  node_process e e.

Definition production : platform :=
  node_platform {["NODE_ENV" := "production"]}.

(** A process that was started with a host and a URL and has dropped
    them from its environment before constructing. *)
Definition rehosted : platform :=
  node_process (list_to_map [("WEB_HOST", "example.com");
                             ("WEB_URL", "https://example.com")])
               {["NODE_ENV" := "production"]}.

Definition bare : platform := node_platform ∅.

Open Scope list_scope.

(** Koa's composition runs the middleware of a request in attachment
    order for as long as each one calls [next]: the middleware a request
    reaches on its way in, given which of them pass it on. *)
Fixpoint inbound (calls_next : middleware -> bool) (l : list middleware)
  : list middleware :=
  match l with
  | [] => []
  | m :: l' => m :: (if calls_next m then inbound calls_next l' else [])
  end.

(** The middleware the claims single out. *)
Definition landmark (m : middleware) : bool :=
  match m with
  | RateLimitGuard | Session _ | RedirectLoopMw _ | Flash | CsrfGuard => true
  | _ => false
  end.

(** The middleware that read the session. *)
Definition needs_session (m : middleware) : bool :=
  match m with
  | RedirectLoopMw _ | Flash => true
  | _ => false
  end.

Definition is_session (m : middleware) : bool :=
  match m with Session _ => true | _ => false end.

(** A middleware attached under a condition. *)
Definition opt (c : bool) (m : middleware) : list middleware :=
  if c then [m] else [].

(** The package or block behind a middleware, for display. *)
Definition middleware_name (m : middleware) : string :=
  match m with
  | RequestReceived => "request-received"
  | TimeoutMw _ => "koa-better-timeout"
  | ResponseTime => "response-time"
  | RequestId => "express-request-id"
  | CabinMw => "cabin"
  | BasicAuth _ => "koa-basic-auth"
  | RateLimitGuard => "rate limiting"
  | RemoveTrailingSlashes => "koa-no-trailing-slash"
  | Helmet _ => "koa-helmet"
  | I18nMiddleware _ => "i18n.middleware"
  | I18nRedirect _ => "i18n.redirect"
  | ConditionalGet => "koa-conditional-get"
  | Etag => "koa-etag"
  | Cors _ => "kcors"
  | Compress _ => "koa-compress"
  | KoaCash _ => "koa-cash"
  | CacheResponsesMw _ => "koa-cache-responses"
  | Favicon _ _ => "koa-favicon"
  | ServeStatic _ _ => "koa-better-static"
  | Views _ _ => "koa-views"
  | IsAjax => "koa-isajax"
  | MetaMw _ => "koa-meta"
  | StateHelperMw _ => "state-helper"
  | Session _ => "koa-generic-session"
  | RedirectLoopMw _ => "koa-redirect-loop"
  | Flash => "koa-better-flash"
  | BodyParser => "koa-bodyparser"
  | Json => "koa-json"
  | MethodOverrideMw _ => "koa-methodoverride"
  | CsrfGuard => "csrf"
  | StoreIPAddressMw _ => "store-ip-address"
  | Koa404Handler => "koa-404-handler"
  | Custom (Closure id _ _) => id
  | Custom _ => "function"
  end.

Definition pipeline_names (r : result web) : list string :=
  match r with
  | Ok w => map middleware_name (app_middleware (web_app w))
  | Throw _ => []
  end.

(** A caller configuration that switches on what the defaults leave off,
    with two hooks and a router. *)
Definition full_config : gmap string value :=
  list_to_map [
    ("timeout", obj [("ms", VNum 3000)]);
    ("auth", obj [("name", VStr "u"); ("pass", VStr "p")]);
    ("i18n", obj []);
    ("cors", obj []);
    ("koaCash", obj [("get", VFun (Closure "cache.get" [] VUndefined));
                     ("set", VFun (Closure "cache.set" [] VUndefined))]);
    ("cacheResponses", obj []);
    ("passport", obj [("initialize", VFun (Closure "passport.initialize" []
                                          (VFun (Closure "initialize" [] VUndefined))));
                      ("session", VFun (Closure "passport.session" []
                                       (VFun (Closure "session" [] VUndefined))))]);
    ("storeIPAddress", obj []);
    ("hookBeforeSetup",
       VFun (Closure "hookBeforeSetup" [VFun (Closure "before-setup" [] VUndefined)]
                     VUndefined));
    ("hookBeforeRoutes",
       VFun (Closure "hookBeforeRoutes" [VFun (Closure "before-routes" [] VUndefined)]
                     VUndefined));
    ("routes", obj [("routes", VFun (Closure "router.routes" []
                                    (VFun (Closure "router" [] VUndefined))))])
  ].

(** The landmarks of the whole pipeline, in attachment order. *)
Definition landmarks (P : platform) (cfg : gmap string value) : list middleware :=
  opt (truthy (cfg_get cfg "rateLimit")) RateLimitGuard
  ++ [Session (session_options cfg)]
  ++ opt (truthy (cfg_get cfg "redirectLoop")) (RedirectLoopMw (cfg_get cfg "redirectLoop"))
  ++ [Flash]
  ++ opt (csrf_enabled P cfg) CsrfGuard.

(** ** The pipeline as a list

    The sequence of [app.use] calls of the constructor, written as the list
    they leave behind: one segment per call or guarded block, in source
    order.  It is compared with [assemble] below. *)

(** [v.k] where the read cannot throw. *)
Definition prop (v : value) (k : string) : value :=
  match get_prop v k with Ok x => x | Throw _ => VUndefined end.

(** [v == null]. *)
Definition nullish (v : value) : bool :=
  match v with VUndefined | VNull => true | _ => false end.

(** The keys of the defaults table of the constructor. *)
Definition own_keys : list string :=
  ["meta"; "views"; "csrf"; "csrfIgnoredGlobs"; "rateLimitIgnoredGlobs";
   "sessionKeys"; "cookiesKey"; "favicon"; "buildDir"; "serveStatic";
   "redirectLoop"; "koaCash"; "cacheResponses"; "genSid"; "methodOverride";
   "helmet"; "compress"]%string.

(** [v()] where the call returns. *)
Definition ret_of (v : value) : value :=
  match call_value v "" with Ok r => r | Throw _ => VUndefined end.

Definition is_custom (m : middleware) : bool :=
  match m with Custom _ => true | _ => false end.

(** The caller's functions among [vs], as middleware. *)
Definition customs (vs : list value) : list middleware :=
  omap (fun v => match v with VFun f => Some (Custom f) | _ => None end) vs.

Definition hook_middleware (cfg : gmap string value) (name : string)
  : list middleware :=
  match cfg_get cfg name with
  | VFun (Closure _ uses _) => customs uses
  | _ => []
  end.

Definition i18n_middleware (cfg : gmap string value) : list middleware :=
  let i18n := cfg_get cfg "i18n" in
  if truthy i18n then
    if truthy (prop i18n "config")
    then customs [prop i18n "middleware"; prop i18n "redirect"]
    else [I18nMiddleware (<["logger" := cabin_logger]> (spread i18n));
          I18nRedirect (<["logger" := cabin_logger]> (spread i18n))]
  else [].

Definition method_override_middleware (cfg : gmap string value) : list middleware :=
  if truthy (cfg_get cfg "methodOverride") then
    match spread_args (cfg_get cfg "methodOverride") "" with
    | Ok getters => [MethodOverrideMw getters]
    | Throw _ => []
    end
  else [].

Definition passport_middleware (cfg : gmap string value) : list middleware :=
  let passport := cfg_get cfg "passport" in
  if truthy passport
  then customs [ret_of (prop passport "initialize"); ret_of (prop passport "session")]
  else [].

Definition routes_middleware (cfg : gmap string value) : list middleware :=
  let routes := cfg_get cfg "routes" in
  if truthy routes then
    if isFunction (prop routes "routes")
    then customs [ret_of (prop routes "routes")]
    else customs [routes]
  else [].

Definition pipeline_of (P : platform) (cfg : gmap string value) : list middleware :=
  [RequestReceived]
  ++ opt (truthy (cfg_get cfg "timeout")) (TimeoutMw (cfg_get cfg "timeout"))
  ++ [ResponseTime; RequestId; CabinMw]
  ++ hook_middleware cfg "hookBeforeSetup"
  ++ opt (truthy (cfg_get cfg "auth")) (BasicAuth (cfg_get cfg "auth"))
  ++ opt (truthy (cfg_get cfg "rateLimit")) RateLimitGuard
  ++ [RemoveTrailingSlashes]
  ++ opt (truthy (cfg_get cfg "helmet")) (Helmet (cfg_get cfg "helmet"))
  ++ i18n_middleware cfg
  ++ [ConditionalGet; Etag]
  ++ opt (truthy (cfg_get cfg "cors")) (Cors (cfg_get cfg "cors"))
  ++ opt (truthy (cfg_get cfg "compress")) (Compress (cfg_get cfg "compress"))
  ++ opt (truthy (cfg_get cfg "koaCash")) (KoaCash (cfg_get cfg "koaCash"))
  ++ opt (truthy (cfg_get cfg "cacheResponses"))
         (CacheResponsesMw (cfg_get cfg "cacheResponses"))
  ++ opt (truthy (cfg_get cfg "favicon"))
         (Favicon (prop (cfg_get cfg "favicon") "path")
                  (prop (cfg_get cfg "favicon") "options"))
  ++ opt (truthy (cfg_get cfg "buildDir") && truthy (cfg_get cfg "serveStatic"))
         (ServeStatic (cfg_get cfg "buildDir") (cfg_get cfg "serveStatic"))
  ++ [Views (prop (cfg_get cfg "views") "root")
            (lodash_extend (prop (cfg_get cfg "views") "options")
                           (prop (cfg_get cfg "views") "locals"));
      IsAjax]
  ++ opt (truthy (cfg_get cfg "meta")) (MetaMw (cfg_get cfg "meta"))
  ++ [StateHelperMw (prop (cfg_get cfg "views") "locals");
      Session (session_options cfg)]
  ++ opt (truthy (cfg_get cfg "redirectLoop")) (RedirectLoopMw (cfg_get cfg "redirectLoop"))
  ++ [Flash; BodyParser; Json]
  ++ method_override_middleware cfg
  ++ opt (csrf_enabled P cfg) CsrfGuard
  ++ passport_middleware cfg
  ++ opt (truthy (cfg_get cfg "storeIPAddress"))
         (StoreIPAddressMw (spread (cfg_get cfg "storeIPAddress")
                            ∪ {["logger" := cabin_logger]}))
  ++ [Koa404Handler]
  ++ hook_middleware cfg "hookBeforeRoutes"
  ++ routes_middleware cfg.

(** The place of a middleware in the source: the rank of the [app.use]
    call that attaches it.  The caller's functions have none. *)
Definition position (m : middleware) : nat :=
  match m with
  | Custom _ => 0
  | RequestReceived => 1
  | TimeoutMw _ => 2
  | ResponseTime => 3
  | RequestId => 4
  | CabinMw => 5
  | BasicAuth _ => 6
  | RateLimitGuard => 7
  | RemoveTrailingSlashes => 8
  | Helmet _ => 9
  | I18nMiddleware _ => 10
  | I18nRedirect _ => 11
  | ConditionalGet => 12
  | Etag => 13
  | Cors _ => 14
  | Compress _ => 15
  | KoaCash _ => 16
  | CacheResponsesMw _ => 17
  | Favicon _ _ => 18
  | ServeStatic _ _ => 19
  | Views _ _ => 20
  | IsAjax => 21
  | MetaMw _ => 22
  | StateHelperMw _ => 23
  | Session _ => 24
  | RedirectLoopMw _ => 25
  | Flash => 26
  | BodyParser => 27
  | Json => 28
  | MethodOverrideMw _ => 29
  | CsrfGuard => 30
  | StoreIPAddressMw _ => 31
  | Koa404Handler => 32
  end.

(** The middleware of the packages occur in [l] by strictly increasing
    position, all above [k]. *)
Fixpoint in_order (k : nat) (l : list middleware) : bool :=
  match l with
  | [] => true
  | m :: l' =>
      if is_custom m then in_order k l'
      else Nat.ltb k (position m) && in_order (position m) l'
  end.

(** ** The default method-override getter

    [(request) => { const { _method } = request.body;
                    if (_method && typeof _method === 'string') return _method; }] *)
Definition body_method (request : value) : result value :=
  match get_prop request "body" with
  | Throw e => Throw e
  | Ok body =>
      match get_prop body "_method" with
      | Throw e => Throw e
      | Ok m =>
          Ok (if truthy m && (match m with VStr _ => true | _ => false end)
              then m else VUndefined)
      end
  end.

(** [pieces.join(',')]. *)
Fixpoint join_comma (pieces : list string) : string :=
  match pieces with
  | [] => ""
  | [w] => w
  | w :: ws => (w ++ "," ++ join_comma ws)%string
  end.

Fixpoint has_comma (s : string) : bool :=
  match s with
  | EmptyString => false
  | String c s' => Ascii.eqb c ","%char || has_comma s'
  end.

(** ** A concrete instance *)

Definition instance_or (fallback : web) (r : result web) : web :=
  match r with Ok w => w | Throw _ => fallback end.

Definition unbuilt : web :=
  mk_web ∅ None new_koa (mk_server 0 PlainHttp []) VUndefined.

(** [new Web()] on the [production] platform. *)
Definition production_web : web :=
  Eval vm_compute in instance_or unbuilt (constructor production 0 ∅).

(** ** Predicates on the steps of the constructor *)

(** [emits m d]: whenever [m] returns, it has attached exactly [d]. *)
Definition emits {A} (m : M A) (d : list middleware) : Prop :=
  forall s a s', m s = Ok (a, s') -> app_middleware s' = app_middleware s ++ d.

(** The settings of the application other than its middleware. *)
Definition settings (s : app) : value * bool * bool :=
  (app_keys s, app_proxy s, app_cache s).

(** [sets m f]: whenever [m] returns, it has changed the settings by [f]. *)
Definition sets {A} (m : M A) (f : value * bool * bool -> value * bool * bool) : Prop :=
  forall s a s', m s = Ok (a, s') -> settings s' = f (settings s).

(** [fails m]: [m] throws, whatever the application it starts from. *)
Definition fails {A} (m : M A) : Prop :=
  forall s, exists e, m s = Throw e.

(** * Properties *)

(** ** Reasoning about the monad *)

(** [adds m t]: whenever [m] returns, the landmarks it attached are
    exactly [t], after those already there. *)
Definition adds {A} (m : M A) (t : list middleware) : Prop :=
  forall s a s', m s = Ok (a, s') ->
    List.filter landmark (app_middleware s')
    = List.filter landmark (app_middleware s) ++ t.

Lemma adds_ret {A} (a : A) : adds (ret a) [].
Proof.
  intros s a' s' H. injection H as _ <-. now rewrite app_nil_r.
Qed.

Lemma adds_lift {A} (r : result A) : adds (lift r) [].
Proof.
  intros s a s' H. unfold lift in H. destruct r; [|discriminate].
  injection H as _ <-. now rewrite app_nil_r.
Qed.

Lemma adds_throw {A} (e : js_error) t : adds (@throw A e) t.
Proof. intros s a s' H. discriminate. Qed.

Lemma adds_bind {A B} (m : M A) (k : A -> M B) t1 t2 :
  adds m t1 -> (forall a, adds (k a) t2) -> adds (bind m k) (t1 ++ t2).
Proof.
  intros Hm Hk s b s' H. unfold bind in H.
  destruct (m s) as [[a s1]|e] eqn:E; [|discriminate].
  rewrite (Hk a _ _ _ H), (Hm _ _ _ E). now rewrite app_assoc.
Qed.

Lemma adds_bind_nil {A B} (m : M A) (k : A -> M B) t :
  adds m [] -> (forall a, adds (k a) t) -> adds (bind m k) t.
Proof. intros Hm Hk. exact (adds_bind m k [] t Hm Hk). Qed.

Lemma adds_use m : adds (app_use m) (opt (landmark m) m).
Proof.
  intros s a s' H. injection H as _ <-. cbn [app_middleware].
  rewrite List.filter_app. f_equal.
Qed.

Lemma adds_use_plain m : landmark m = false -> adds (app_use m) [].
Proof. intros E. pose proof (adds_use m) as H. now rewrite E in H. Qed.

Lemma adds_use_landmark m : landmark m = true -> adds (app_use m) [m].
Proof. intros E. pose proof (adds_use m) as H. now rewrite E in H. Qed.

Lemma adds_when c (m : M unit) : adds m [] -> adds (when c m) [].
Proof. intros H. destruct c; [exact H | apply adds_ret]. Qed.

Lemma adds_when_landmark c m :
  landmark m = true -> adds (when c (app_use m)) (opt c m).
Proof.
  intros E. destruct c; cbn; [now apply adds_use_landmark | apply adds_ret].
Qed.

Lemma adds_set (f : app -> app) :
  (forall s, app_middleware (f s) = app_middleware s) ->
  adds (fun s => Ok (tt, f s)) [].
Proof.
  intros Hf s a s' H. injection H as _ <-. now rewrite Hf, app_nil_r.
Qed.

Lemma adds_use_value v : adds (app_use_value v) [].
Proof.
  destruct v; try apply adds_throw. now apply adds_use_plain.
Qed.

Lemma adds_use_values vs : adds (app_use_values vs) [].
Proof.
  induction vs as [|v vs IH]; cbn [app_use_values].
  - apply adds_ret.
  - apply adds_bind_nil; [apply adds_use_value | intros _; exact IH].
Qed.

Lemma adds_call_with_app f : adds (call_with_app f) [].
Proof.
  destruct f; cbn; try apply adds_throw; [apply adds_ret | apply adds_use_values].
Qed.

(** Blocks that attach no landmark. *)
Ltac quiet :=
  repeat first
    [ apply adds_ret
    | apply adds_lift
    | apply adds_throw
    | apply adds_use_value
    | apply adds_use_values
    | apply adds_call_with_app
    | (apply adds_use_plain; reflexivity)
    | (apply adds_set; intros; reflexivity)
    | apply adds_when
    | (apply adds_bind_nil; [|intros])
    | match goal with |- adds (if ?c then _ else _) _ => destruct c end
    | match goal with |- adds (match ?v with _ => _ end) _ => destruct v end ].

Section Blocks.
Variable P : platform.
Variable cfg : gmap string value.

Lemma adds_setup_flags : adds (setup_flags P cfg) [].
Proof. unfold setup_flags, set_proxy, set_cache. quiet. Qed.

Lemma adds_run_hook name : adds (run_hook cfg name) [].
Proof. unfold run_hook. quiet. Qed.

Lemma adds_use_i18n : adds (use_i18n cfg) [].
Proof. unfold use_i18n. quiet. Qed.

Lemma adds_use_favicon : adds (use_favicon cfg) [].
Proof. unfold use_favicon. quiet. Qed.

Lemma adds_use_views : adds (use_views cfg) [].
Proof. unfold use_views. quiet. Qed.

Lemma adds_use_state_helper : adds (use_state_helper cfg) [].
Proof. unfold use_state_helper. quiet. Qed.

Lemma adds_use_method_override : adds (use_method_override cfg) [].
Proof. unfold use_method_override. quiet. Qed.

Lemma adds_use_passport : adds (use_passport cfg) [].
Proof. unfold use_passport. quiet. Qed.

Lemma adds_use_routes : adds (use_routes cfg) [].
Proof. unfold use_routes. quiet. Qed.

Lemma adds_use_session :
  adds (use_session cfg) [Session (session_options cfg)].
Proof.
  unfold use_session, set_keys. apply adds_bind_nil.
  - apply adds_set. reflexivity.
  - intros _. now apply adds_use_landmark.
Qed.

Lemma adds_assemble : adds (assemble P cfg) (landmarks P cfg).
Proof.
  unfold assemble, landmarks.
  apply adds_bind_nil; [apply adds_setup_flags | intros _].
  do 5 (apply adds_bind_nil; [unfold use_timeout; quiet | intros _]).
  apply adds_bind_nil; [apply adds_run_hook | intros _].
  apply adds_bind_nil; [unfold use_auth; quiet | intros _].
  apply adds_bind; [now apply adds_when_landmark | intros _].
  apply adds_bind_nil; [quiet | intros _].
  apply adds_bind_nil; [unfold use_helmet; quiet | intros _].
  apply adds_bind_nil; [apply adds_use_i18n | intros _].
  do 2 (apply adds_bind_nil; [quiet | intros _]).
  apply adds_bind_nil; [unfold use_cors; quiet | intros _].
  apply adds_bind_nil; [unfold use_compress; quiet | intros _].
  apply adds_bind_nil; [unfold use_koa_cash; quiet | intros _].
  apply adds_bind_nil; [unfold use_cache_responses; quiet | intros _].
  apply adds_bind_nil; [apply adds_use_favicon | intros _].
  apply adds_bind_nil; [unfold use_serve_static; quiet | intros _].
  apply adds_bind_nil; [apply adds_use_views | intros _].
  apply adds_bind_nil; [quiet | intros _].
  apply adds_bind_nil; [unfold use_meta; quiet | intros _].
  apply adds_bind_nil; [apply adds_use_state_helper | intros _].
  apply adds_bind; [apply adds_use_session | intros _].
  apply adds_bind; [now apply adds_when_landmark | intros _].
  apply adds_bind; [now apply adds_use_landmark | intros _].
  do 2 (apply adds_bind_nil; [quiet | intros _]).
  apply adds_bind_nil; [apply adds_use_method_override | intros _].
  rewrite <- (app_nil_r (opt _ CsrfGuard)).
  apply adds_bind; [now apply adds_when_landmark | intros _].
  apply adds_bind_nil; [apply adds_use_passport | intros _].
  apply adds_bind_nil; [unfold use_store_ip_address; quiet | intros _].
  apply adds_bind_nil; [quiet | intros _].
  apply adds_bind_nil; [apply adds_run_hook | intros _].
  apply adds_use_routes.
Qed.
End Blocks.

(** ** Lists *)

Lemma filter_split {A} (p : A -> bool) (l t1 : list A) (x : A) (t2 : list A) :
  List.filter p l = t1 ++ x :: t2 ->
  exists l1 l2, l = l1 ++ x :: l2 /\ List.filter p l1 = t1 /\ List.filter p l2 = t2.
Proof.
  revert t1. induction l as [|a l IH]; intros t1 H; cbn in H.
  - destruct t1; discriminate.
  - destruct (p a) eqn:Ea.
    + destruct t1 as [|b t1]; cbn in H; injection H as -> H.
      * exists [], l. repeat split; assumption.
      * destruct (IH _ H) as (l1 & l2 & -> & H1 & H2).
        exists (b :: l1), l2. cbn. rewrite Ea, H1. repeat split; assumption.
    + destruct (IH _ H) as (l1 & l2 & -> & H1 & H2).
      exists (a :: l1), l2. cbn. rewrite Ea. repeat split; assumption.
Qed.

Lemma lookup_filter {A} (p : A -> bool) (l : list A) (j : nat) (x : A) :
  l !! j = Some x -> p x = true -> In x (List.filter p l).
Proof.
  intros H E. apply List.filter_In. split; [|exact E].
  apply list_elem_of_In. eapply list_elem_of_lookup_2. exact H.
Qed.

Lemma inbound_lookup f (l : list middleware) (j : nat) (m : middleware) :
  inbound f l !! j = Some m ->
  l !! j = Some m /\ forall i : nat, (i < j)%nat -> inbound f l !! i = l !! i.
Proof.
  revert j. induction l as [|a l IH]; intros j H; cbn in H.
  - destruct j; discriminate.
  - destruct j as [|j]; cbn in H.
    + split; [exact H | intros i Hi; lia].
    + destruct (f a) eqn:Ea.
      * destruct (IH _ H) as [H1 H2]. split; [exact H1|].
        intros [|i] Hi; cbn; [reflexivity | rewrite Ea; apply H2; lia].
      * destruct j; discriminate.
Qed.

(** ** The constructor *)

Lemma constructor_inv P sid config w :
  constructor P sid config = Ok w ->
  exists a, assemble P (merge_config P config) new_koa = Ok (tt, a)
    /\ web_app w = a
    /\ web_server w = create_server sid (merge_config P config) a
    /\ web_config w = config_after_views (merge_config P config).
Proof.
  unfold constructor. intros H.
  destruct (assemble P (merge_config P config) new_koa) as [[[] a]|e]; [|discriminate].
  injection H as <-. exists a. repeat split.
Qed.

Lemma constructor_landmarks P sid config w :
  constructor P sid config = Ok w ->
  List.filter landmark (app_middleware (web_app w))
  = landmarks P (merge_config P config).
Proof.
  intros H. destruct (constructor_inv _ _ _ _ H) as (a & Ha & -> & _).
  exact (adds_assemble P _ _ _ _ Ha).
Qed.

Lemma in_opt c m x : In x (opt c m) -> x = m.
Proof. destruct c; cbn; intuition. Qed.

(** ** Order of the session store *)

(** C2: in every pipeline the constructor assembles, the session store
    is attached exactly once, at an index strictly below that of every
    redirect-loop and flash middleware; the flash middleware is always
    there and the redirect-loop one whenever [config.redirectLoop] is
    truthy; and a request that reaches one of the two on its way in has
    gone through the session store first. *)
Theorem session_precedes_redirect_loop_and_flash P sid config w :
  constructor P sid config = Ok w ->
  let cfg := merge_config P config in
  let pipeline := app_middleware (web_app w) in
  exists i : nat,
    pipeline !! i = Some (Session (session_options cfg))
    /\ (forall (j : nat) m, pipeline !! j = Some m -> is_session m = true -> j = i)
    /\ (forall (j : nat) m,
          pipeline !! j = Some m -> needs_session m = true -> (i < j)%nat)
    /\ In Flash pipeline
    /\ (truthy (cfg_get cfg "redirectLoop") = true ->
        In (RedirectLoopMw (cfg_get cfg "redirectLoop")) pipeline)
    /\ (forall calls_next (j : nat) m,
          inbound calls_next pipeline !! j = Some m -> needs_session m = true ->
          (i < j)%nat
          /\ inbound calls_next pipeline !! i = Some (Session (session_options cfg))).
Proof.
  intros H cfg pipeline.
  pose proof (constructor_landmarks _ _ _ _ H) as HL.
  fold cfg pipeline in HL. unfold landmarks in HL.
  destruct (filter_split _ _ _ _ _ HL) as (l1 & l2 & Hp & H1 & H2).
  assert (Hat : pipeline !! length l1 = Some (Session (session_options cfg))).
  { rewrite Hp. apply list_lookup_middle. reflexivity. }
  assert (Hpre : forall (j : nat) m, l1 !! j = Some m -> landmark m = true ->
                                     m = RateLimitGuard).
  { intros j m Hj Hm. pose proof (lookup_filter _ _ _ _ Hj Hm) as Hin.
    rewrite H1 in Hin. exact (in_opt _ _ _ Hin). }
  assert (Hpost : forall (j : nat) m, l2 !! j = Some m -> landmark m = true ->
                                      is_session m = false).
  { intros j m Hj Hm. pose proof (lookup_filter _ _ _ _ Hj Hm) as Hin.
    rewrite H2 in Hin. apply in_app_or in Hin as [Hin|Hin].
    - apply in_opt in Hin. now subst.
    - cbn in Hin. destruct Hin as [<-|Hin]; [reflexivity|].
      apply in_opt in Hin. now subst. }
  assert (Hlate : forall (j : nat) m,
             pipeline !! j = Some m -> needs_session m = true -> (length l1 < j)%nat).
  { intros j m Hj Hm.
    destruct (Nat.lt_trichotomy j (length l1)) as [Hlt|[->|Hgt]]; [| |exact Hgt].
    - rewrite Hp, lookup_app_l in Hj by exact Hlt.
      assert (landmark m = true) as Hl by (destruct m; try discriminate; reflexivity).
      rewrite (Hpre _ _ Hj Hl) in Hm. discriminate.
    - rewrite Hat in Hj. injection Hj as <-. discriminate. }
  exists (length l1). split; [exact Hat|]. split; [|split; [exact Hlate|]].
  { intros j m Hj Hm.
    assert (landmark m = true) as Hl by (destruct m; try discriminate; reflexivity).
    destruct (Nat.lt_trichotomy j (length l1)) as [Hlt|[->|Hgt]]; [|reflexivity|].
    - rewrite Hp, lookup_app_l in Hj by exact Hlt.
      rewrite (Hpre _ _ Hj Hl) in Hm. discriminate.
    - rewrite Hp, lookup_app_r in Hj by lia.
      destruct (j - length l1)%nat as [|k] eqn:Ek; [lia|]. cbn in Hj.
      rewrite (Hpost _ _ Hj Hl) in Hm. discriminate. }
  assert (Hsub : forall m, In m (List.filter landmark l2) -> In m pipeline).
  { intros m Hm. apply List.filter_In in Hm as [Hm _].
    rewrite Hp. apply in_or_app. right. right. exact Hm. }
  split; [|split].
  - apply Hsub. rewrite H2. apply in_or_app. right. left. reflexivity.
  - intros Ht. apply Hsub. rewrite H2, Ht. left. reflexivity.
  - intros calls_next j m Hj Hm.
    destruct (inbound_lookup _ _ _ _ Hj) as [Hj' Hlow].
    pose proof (Hlate _ _ Hj' Hm) as Hlt. split; [exact Hlt|].
    rewrite (Hlow _ Hlt). exact Hat.
Qed.

(** ** The guards *)

Lemma cfg_get_after_views cfg k :
  k <> "views"%string -> cfg_get (config_after_views cfg) k = cfg_get cfg k.
Proof.
  intros Hk. unfold config_after_views, cfg_get.
  destruct (cfg !! "views"%string) as [[]|]; try reflexivity.
  destruct (o !! "options"%string) as [[]|]; try reflexivity.
  now rewrite lookup_insert_ne.
Qed.

Lemma strict_eq_str_true v s : strict_eq_str v s = true <-> v = VStr s.
Proof.
  destruct v; cbn; try (split; [discriminate | congruence]).
  rewrite String.eqb_eq. split; congruence.
Qed.

Lemma csrf_enabled_iff P cfg :
  csrf_enabled P cfg = true
  <-> truthy (cfg_get cfg "csrf") = true /\ env P !! "NODE_ENV"%string <> Some "test"%string.
Proof.
  unfold csrf_enabled. rewrite andb_true_iff, negb_true_iff.
  rewrite <- not_true_iff_false, strict_eq_str_true. unfold getenv.
  destruct (env P !! "NODE_ENV"%string); split; intros [H1 H2]; split;
    congruence.
Qed.

Lemma in_landmarks P cfg m :
  In m (landmarks P cfg) <->
  (m = RateLimitGuard /\ truthy (cfg_get cfg "rateLimit") = true)
  \/ m = Session (session_options cfg)
  \/ (m = RedirectLoopMw (cfg_get cfg "redirectLoop")
      /\ truthy (cfg_get cfg "redirectLoop") = true)
  \/ m = Flash
  \/ (m = CsrfGuard /\ csrf_enabled P cfg = true).
Proof.
  unfold landmarks. rewrite !in_app_iff. unfold opt.
  destruct (truthy (cfg_get cfg "rateLimit")),
           (truthy (cfg_get cfg "redirectLoop")),
           (csrf_enabled P cfg); cbn; intuition congruence.
Qed.

Lemma in_pipeline_landmark P sid config w m :
  constructor P sid config = Ok w -> landmark m = true ->
  In m (app_middleware (web_app w)) <-> In m (landmarks P (merge_config P config)).
Proof.
  intros H Hm. rewrite <- (constructor_landmarks _ _ _ _ H), List.filter_In.
  tauto.
Qed.

(** C3: the CSRF guard is in the pipeline exactly when [config.csrf] is
    truthy and [NODE_ENV] is not ['test']; and when it handles a request
    whose path [multimatch] finds among the non-empty array
    [config.csrfIgnoredGlobs], it calls [next] and nothing else: the CSRF
    validation is not run. *)
Theorem csrf_attached_and_skipped_on_ignored_globs P sid config w :
  constructor P sid config = Ok w ->
  let cfg := merge_config P config in
  (In CsrfGuard (app_middleware (web_app w))
   <-> truthy (cfg_get cfg "csrf") = true
       /\ env P !! "NODE_ENV"%string <> Some "test"%string)
  /\ forall (c : ctx) (found : value),
       nonempty_array (cfg_get (web_config w) "csrfIgnoredGlobs") = true ->
       multimatch P (VStr (ctx_path c)) (cfg_get (web_config w) "csrfIgnoredGlobs")
       = Ok found ->
       nonempty_array found = true ->
       csrf_guard P (web_config w) c = ([CallNext], Ok tt).
Proof.
  intros H cfg. split.
  - rewrite (in_pipeline_landmark _ _ _ _ CsrfGuard H eq_refl), in_landmarks.
    fold cfg. rewrite <- csrf_enabled_iff.
    split; [|tauto]. intros [[? _]|[?|[[? _]|[?|[_ ?]]]]]; try discriminate.
    assumption.
  - intros c found Hg Hm Hf. unfold csrf_guard, ignored. now rewrite Hg, Hm, Hf.
Qed.

(** C4: with [config.rateLimit] truthy the rate-limit guard is in the
    pipeline (and only then); for a request whose path [multimatch] finds
    among the non-empty array [config.rateLimitIgnoredGlobs] it calls
    [next] and nothing else, whatever [config.rateLimit] holds; for every
    other request it runs [ratelimit] with the configured options and the
    Redis client, and returns what that returns. *)
Theorem rate_limit_skipped_on_ignored_globs P sid config w :
  constructor P sid config = Ok w ->
  let cfg := merge_config P config in
  (In RateLimitGuard (app_middleware (web_app w))
   <-> truthy (cfg_get cfg "rateLimit") = true)
  /\ forall c : ctx,
       let globs := cfg_get (web_config w) "rateLimitIgnoredGlobs" in
       let opts := <["db" := redis_client]> (spread (cfg_get cfg "rateLimit")) in
       (forall found,
          nonempty_array globs = true ->
          multimatch P (VStr (ctx_path c)) globs = Ok found ->
          nonempty_array found = true ->
          rate_limit_guard P (web_config w) c = ([CallNext], Ok tt))
       /\ (nonempty_array globs = false
           \/ (exists found, multimatch P (VStr (ctx_path c)) globs = Ok found
                             /\ nonempty_array found = false) ->
           rate_limit_guard P (web_config w) c
           = ([CallRateLimit opts], ratelimit_run P opts c)).
Proof.
  intros H cfg. split.
  - rewrite (in_pipeline_landmark _ _ _ _ RateLimitGuard H eq_refl), in_landmarks.
    fold cfg. split; [|tauto].
    intros [[_ ?]|[?|[[? _]|[?|[? _]]]]]; try discriminate. assumption.
  - intros c globs opts.
    destruct (constructor_inv _ _ _ _ H) as (_ & _ & _ & _ & Hc).
    assert (Ho : rate_limit_options (web_config w) = opts).
    { unfold rate_limit_options, opts. rewrite Hc.
      now rewrite cfg_get_after_views by discriminate. }
    unfold rate_limit_guard, ignored. fold globs. rewrite Ho. split.
    + intros found Hg Hm Hf. now rewrite Hg, Hm, Hf.
    + intros [->|(found & -> & ->)]; [reflexivity|].
      now destruct (nonempty_array globs).
Qed.

(** ** Defaults *)

Lemma merge_lookup_own P config k v :
  config !! k = None -> own_defaults P !! k = Some v ->
  cfg_get (merge_config P config) k = v.
Proof.
  intros Hc Ho. unfold cfg_get, merge_config.
  rewrite lookup_union_r by exact Hc.
  now rewrite (lookup_union_Some_l _ _ _ _ Ho).
Qed.

(** C10: a caller that supplies neither [csrfIgnoredGlobs] nor
    [rateLimitIgnoredGlobs] gets [['/report']] for both; provided
    [multimatch] finds ['/report'] under the pattern list [['/report']],
    every request for the path ['/report'] then makes both guards call
    [next] and nothing else. *)
Theorem report_path_bypasses_csrf_and_rate_limit P sid config w :
  constructor P sid config = Ok w ->
  config !! "csrfIgnoredGlobs"%string = None ->
  config !! "rateLimitIgnoredGlobs"%string = None ->
  (exists found, multimatch P (VStr "/report") (VArr [VStr "/report"]) = Ok found
                 /\ nonempty_array found = true) ->
  cfg_get (web_config w) "csrfIgnoredGlobs" = VArr [VStr "/report"]
  /\ cfg_get (web_config w) "rateLimitIgnoredGlobs" = VArr [VStr "/report"]
  /\ forall c : ctx, ctx_path c = "/report"%string ->
       csrf_guard P (web_config w) c = ([CallNext], Ok tt)
       /\ rate_limit_guard P (web_config w) c = ([CallNext], Ok tt).
Proof.
  intros H Hc Hr (found & Hm & Hf).
  destruct (constructor_inv _ _ _ _ H) as (_ & _ & _ & _ & Hw).
  assert (Gc : cfg_get (web_config w) "csrfIgnoredGlobs" = VArr [VStr "/report"]).
  { rewrite Hw, cfg_get_after_views by discriminate.
    apply merge_lookup_own; [exact Hc | reflexivity]. }
  assert (Gr : cfg_get (web_config w) "rateLimitIgnoredGlobs" = VArr [VStr "/report"]).
  { rewrite Hw, cfg_get_after_views by discriminate.
    apply merge_lookup_own; [exact Hr | reflexivity]. }
  split; [exact Gc|]. split; [exact Gr|].
  intros c Hp. unfold csrf_guard, rate_limit_guard, ignored.
  rewrite Gc, Gr, Hp. cbn [nonempty_array]. rewrite Hm, Hf. split; reflexivity.
Qed.

(** C5, as amended: when [WEB_HOST] was absent or blank as the module
    was loaded, [defaultSrc] is [null], the [helmet] entry of the defaults
    has [contentSecurityPolicy: null], and that is the [helmet] of every
    instance configuration whose caller did not supply one, whatever the
    environment holds when the instance is constructed. *)
Theorem no_host_no_content_security_policy P config :
  (load_env P !! "WEB_HOST"%string = None
   \/ exists s, load_env P !! "WEB_HOST"%string = Some s /\ blank s = true) ->
  defaultSrc P = VNull
  /\ own_defaults P !! "helmet"%string = Some (default_helmet P)
  /\ get_prop (default_helmet P) "contentSecurityPolicy" = Ok VNull
  /\ (config !! "helmet"%string = None ->
      get_prop (cfg_get (merge_config P config) "helmet") "contentSecurityPolicy"
      = Ok VNull).
Proof.
  intros H.
  assert (Hd : defaultSrc P = VNull).
  { unfold defaultSrc, getenv_at_load.
    destruct H as [->|(s & -> & Hs)]; cbn; [reflexivity|]. now rewrite Hs. }
  assert (Hc : get_prop (default_helmet P) "contentSecurityPolicy" = Ok VNull).
  { unfold default_helmet. rewrite Hd. reflexivity. }
  split; [exact Hd|]. split; [reflexivity|]. split; [exact Hc|].
  intros Hn. now rewrite (merge_lookup_own P config "helmet" (default_helmet P) Hn eq_refl).
Qed.

(** C5 as first stated fails on the code: [defaultSrc] is computed once,
    when the module is loaded.  A process started with [WEB_HOST] set that
    has removed it before constructing gets an instance whose default
    [helmet] carries a content security policy, although [WEB_HOST] is
    absent at construction. *)
Lemma host_absent_at_construction_still_has_policy :
  env rehosted !! "WEB_HOST"%string = None
  /\ (exists w, constructor rehosted 0 ∅ = Ok w
               /\ web_config w !! "helmet"%string = Some (default_helmet rehosted))
  /\ get_prop (default_helmet rehosted) "contentSecurityPolicy" <> Ok VNull.
Proof.
  split; [reflexivity|]. split.
  - destruct (constructor rehosted 0 ∅) as [w|e] eqn:E;
      [|vm_compute in E; discriminate].
    exists w. split; [reflexivity|].
    destruct (constructor_inv _ _ _ _ E) as (a & _ & _ & _ & ->).
    vm_compute. reflexivity.
  - intros H. vm_compute in H. discriminate.
Qed.

(** C9: the merge is by top-level key.  A key the caller supplies keeps
    the caller's value whole; a key the caller omits keeps its default;
    in particular a supplied [views] object is the merged one, so each of
    [root], [locals] and [options] it lacks is undefined after the merge,
    and when [locals] is the one it lacks the constructor throws. *)
Theorem config_merge_is_shallow P sid config :
  (forall k v, config !! k = Some v -> merge_config P config !! k = Some v)
  /\ (forall k, config !! k = None ->
        merge_config P config !! k = (own_defaults P ∪ sharedConfig P "WEB") !! k)
  /\ (forall views, config !! "views"%string = Some (VObj views) ->
        (forall f, get_prop (cfg_get (merge_config P config) "views") f
                   = Ok (default VUndefined (views !! f)))
        /\ (views !! "locals"%string = None ->
            exists e, constructor P sid config = Throw e
                      /\ err_name e = "TypeError"%string)).
Proof.
  split; [|split].
  - intros k v H. unfold merge_config. now apply lookup_union_Some_l.
  - intros k H. unfold merge_config. now apply lookup_union_r.
  - intros views H.
    assert (Hv : cfg_get (merge_config P config) "views" = VObj views).
    { unfold cfg_get, merge_config. now rewrite (lookup_union_Some_l _ _ _ _ H). }
    split; [intros f; now rewrite Hv|].
    intros Hl. unfold constructor, assemble, setup_flags, bind at 1 2 3, set_proxy, lift.
    rewrite Hv. cbn. rewrite Hl. cbn. eexists. split; reflexivity.
Qed.

(** C7: the server of an instance serves the composed pipeline; it is a
    secure HTTP/2 server built from [config.ssl] exactly when
    [config.protocol] is the string ['https'], and a plain HTTP server for
    every other value, an absent one included. *)
Theorem protocol_selects_transport P sid config w :
  constructor P sid config = Ok w ->
  let cfg := merge_config P config in
  let handler := callback (web_app w) in
  (cfg_get cfg "protocol" = VStr "https" ->
   web_server w = mk_server sid (SecureHttp2 (cfg_get cfg "ssl")) handler)
  /\ (cfg_get cfg "protocol" <> VStr "https" ->
      web_server w = mk_server sid PlainHttp handler).
Proof.
  intros H cfg handler.
  destruct (constructor_inv _ _ _ _ H) as (a & _ & Ha & Hs & _).
  unfold handler. rewrite Ha, Hs. unfold create_server. fold cfg. split.
  - intros ->. reflexivity.
  - intros Hn. destruct (strict_eq_str (cfg_get cfg "protocol") "https") eqn:E;
      [|reflexivity].
    apply strict_eq_str_true in E. contradiction.
Qed.

(** C8: the error listener logs the error it is given.  An error whose
    status is a non-zero integer (every HTTP status code is) is logged as
    a warning when the status is below 500 and as an error otherwise; an
    error without a status is logged as an error.  The call goes to the
    logger of the request context when there is one and to the Cabin
    instance of the constructor when there is none. *)
Theorem error_event_level_and_logger (error : js_error) (c : ctx) :
  log_argument (on_error error c) = error
  /\ (forall st, err_status error = Some st -> st <> 0 ->
        log_level (on_error error c) = if (st <? 500)%Z then Warn else Error)
  /\ (err_status error = None -> log_level (on_error error c) = Error)
  /\ (forall name, ctx_logger c = Some name ->
        log_logger (on_error error c) = RequestLogger name)
  /\ (ctx_logger c = None -> log_logger (on_error error c) = Cabin).
Proof.
  assert (Hl : log_level (on_error error c) = error_level error)
    by (unfold on_error; destruct (ctx_logger c); reflexivity).
  repeat split.
  - unfold on_error. destruct (ctx_logger c); reflexivity.
  - intros st Hs Hz. rewrite Hl. unfold error_level. rewrite Hs.
    apply Z.eqb_neq in Hz. now rewrite Hz.
  - intros Hs. rewrite Hl. unfold error_level. now rewrite Hs.
  - intros name Hn. unfold on_error. now rewrite Hn.
  - intros Hn. unfold on_error. now rewrite Hn.
Qed.

(** A status of zero is falsy: the listener logs it as an error. *)
Lemma error_level_zero_status error :
  err_status error = Some 0 -> error_level error = Error.
Proof. intros H. unfold error_level. now rewrite H. Qed.

(** C6: the [genSid] of the defaults is the function [GenSid]; whatever
    arguments it is called with, it asks [crypto-random-string] for a
    string of length 32, and, the package returning strings of the length
    it is asked for, its promise resolves to a string of 32 characters. *)
Theorem default_genSid_is_32_characters P (draw : nat) (args : list value) :
  (forall d n, (0 <= n)%Z ->
     exists s, cryptoRandomString_async P d {["length" := VNum n]} = Resolved s
               /\ String.length s = Z.to_nat n) ->
  own_defaults P !! "genSid"%string = Some (VFun GenSid)
  /\ genSid P draw args = genSid P draw []
  /\ genSid P draw args = cryptoRandomString_async P draw {["length" := VNum 32]}
  /\ exists s, genSid P draw args = Resolved s /\ String.length s = 32%nat.
Proof.
  intros Hlib. repeat split.
  destruct (Hlib draw 32 ltac:(lia)) as (s & Hs & Hlen).
  exists s. split; [exact Hs | exact Hlen].
Qed.

(** ** [close] *)

Lemma close_changes_nothing w n : close w n = Ok (tt, n).
Proof. reflexivity. Qed.

Lemma port_in_use_insert (n : gmap nat Z) (i : nat) (p : Z) :
  port_in_use (<[i := p]> n) p = true.
Proof.
  unfold port_in_use. apply existsb_exists. exists (i, p). split.
  - apply list_elem_of_In, elem_of_map_to_list, lookup_insert_eq.
  - apply Z.eqb_refl.
Qed.

(** What a successful [listen] on an explicit port did. *)
Lemma listen_inv P w (p : Z) host n n1 :
  (0 < p < 65536)%Z ->
  listen P w (VNum p) host n = Ok (tt, n1) ->
  n !! srv_id (web_server w) = None
  /\ port_in_use n p = false
  /\ n1 = <[srv_id (web_server w) := p]> n.
Proof.
  intros Hp. unfold listen, await, js_bind, promisify, server_listen. cbn.
  destruct (n !! srv_id (web_server w)); [discriminate|].
  assert (Z.eqb p 0 = false) as -> by lia.
  assert (Z.ltb 0 p && Z.ltb p 65536 = true) as -> by lia.
  destruct (port_in_use n p); [discriminate|].
  intros H. injection H as <-. repeat split.
Qed.

(** Once an instance listens on a port, [close] returns normally and
    changes nothing, and another server object is refused that port. *)
Lemma close_does_not_release P a b (p : Z) host n n1 :
  (0 < p < 65536)%Z ->
  n !! srv_id (web_server b) = None ->
  srv_id (web_server a) <> srv_id (web_server b) ->
  listen P a (VNum p) host n = Ok (tt, n1) ->
  exists n2, close a n1 = Ok (tt, n2)
    /\ n2 = n1
    /\ listen P b (VNum p) host n2 = Throw (system_error "EADDRINUSE").
Proof.
  intros Hp Hb Hab Hl. destruct (listen_inv _ _ _ _ _ _ Hp Hl) as (Ha & Hfree & ->).
  eexists. split; [reflexivity|]. split; [reflexivity|].
  unfold listen, await, js_bind, promisify, server_listen. cbn.
  rewrite lookup_insert_ne, Hb by exact Hab.
  assert (Z.eqb p 0 = false) as -> by lia.
  assert (Z.ltb 0 p && Z.ltb p 65536 = true) as -> by lia.
  now rewrite port_in_use_insert.
Qed.

(** Had the close operation been invoked, the port would be free again. *)
Lemma close_as_specified_releases P a b (p : Z) host n n1 :
  (0 < p < 65536)%Z ->
  n !! srv_id (web_server b) = None ->
  srv_id (web_server a) <> srv_id (web_server b) ->
  listen P a (VNum p) host n = Ok (tt, n1) ->
  close_as_specified a n1 = Ok (tt, n)
  /\ listen P b (VNum p) host n = Ok (tt, <[srv_id (web_server b) := p]> n).
Proof.
  intros Hp Hb Hab Hl. destruct (listen_inv _ _ _ _ _ _ Hp Hl) as (Ha & Hfree & ->).
  split.
  - unfold close_as_specified, io_bind, await, js_bind, promisify, server_close, io_ret.
    rewrite lookup_insert_eq, delete_insert_eq, delete_id by exact Ha.
    reflexivity.
  - unfold listen, await, js_bind, promisify, server_listen. cbn. rewrite Hb.
    assert (Z.eqb p 0 = false) as -> by lia.
    assert (Z.ltb 0 p && Z.ltb p 65536 = true) as -> by lia.
    now rewrite Hfree.
Qed.

(** C1 fails on the code: an instance listens on port 3000, [close]
    returns without throwing and leaves the sockets as they were, and a
    second instance that then listens on port 3000 is refused with
    [EADDRINUSE]. *)
Theorem close_leaves_the_port_bound :
  exists a b n,
    constructor bare 0 ∅ = Ok a
    /\ constructor bare 1 ∅ = Ok b
    /\ listen bare a (VNum 3000) VUndefined ∅ = Ok (tt, n)
    /\ n !! 0%nat = Some 3000
    /\ close a n = Ok (tt, n)
    /\ listen bare b (VNum 3000) VUndefined n = Throw (system_error "EADDRINUSE").
Proof.
  destruct (constructor bare 0 ∅) as [a|e] eqn:Ea; [|vm_compute in Ea; discriminate].
  destruct (constructor bare 1 ∅) as [b|e] eqn:Eb; [|vm_compute in Eb; discriminate].
  destruct (constructor_inv _ _ _ _ Ea) as (a' & _ & _ & Sa & _).
  destruct (constructor_inv _ _ _ _ Eb) as (b' & _ & _ & Sb & _).
  exists a, b, {[0%nat := 3000]}.
  unfold listen, await, js_bind, promisify, server_listen.
  rewrite Sa, Sb. repeat split.
Qed.

(** ** The theorems at work on the concrete platform *)

Lemma repeat_char_length c n : String.length (repeat_char c n) = n.
Proof. induction n as [|n IH]; cbn; [reflexivity | now rewrite IH]. Qed.

Lemma counter_random_length (d : nat) (n : Z) :
  (0 <= n)%Z ->
  exists s, counter_random d {["length" := VNum n]} = Resolved s
            /\ String.length s = Z.to_nat n.
Proof.
  intros _. unfold counter_random. rewrite lookup_singleton_eq.
  eexists. split; [reflexivity | apply repeat_char_length].
Qed.

Lemma session_precedes_redirect_loop_and_flash_witness :
  exists w, constructor production 0 ∅ = Ok w /\
    let cfg := merge_config production ∅ in
    let pipeline := app_middleware (web_app w) in
    exists i : nat,
      pipeline !! i = Some (Session (session_options cfg))
      /\ (forall (j : nat) m, pipeline !! j = Some m -> is_session m = true -> j = i)
      /\ (forall (j : nat) m,
            pipeline !! j = Some m -> needs_session m = true -> (i < j)%nat)
      /\ In Flash pipeline
      /\ (truthy (cfg_get cfg "redirectLoop") = true ->
          In (RedirectLoopMw (cfg_get cfg "redirectLoop")) pipeline)
      /\ (forall calls_next (j : nat) m,
            inbound calls_next pipeline !! j = Some m -> needs_session m = true ->
            (i < j)%nat
            /\ inbound calls_next pipeline !! i = Some (Session (session_options cfg))).
Proof.
  destruct (constructor production 0 ∅) as [w|e] eqn:E;
    [|vm_compute in E; discriminate].
  exists w. split; [reflexivity|].
  exact (session_precedes_redirect_loop_and_flash production 0 ∅ w E).
Defined.

Lemma csrf_attached_and_skipped_on_ignored_globs_witness :
  exists w, constructor production 0 ∅ = Ok w /\
    let cfg := merge_config production ∅ in
    (In CsrfGuard (app_middleware (web_app w))
     <-> truthy (cfg_get cfg "csrf") = true
         /\ env production !! "NODE_ENV"%string <> Some "test"%string)
    /\ forall (c : ctx) (found : value),
         nonempty_array (cfg_get (web_config w) "csrfIgnoredGlobs") = true ->
         multimatch production (VStr (ctx_path c))
                    (cfg_get (web_config w) "csrfIgnoredGlobs")
         = Ok found ->
         nonempty_array found = true ->
         csrf_guard production (web_config w) c = ([CallNext], Ok tt).
Proof.
  destruct (constructor production 0 ∅) as [w|e] eqn:E;
    [|vm_compute in E; discriminate].
  exists w. split; [reflexivity|].
  exact (csrf_attached_and_skipped_on_ignored_globs production 0 ∅ w E).
Defined.

Lemma rate_limit_skipped_on_ignored_globs_witness :
  exists w, constructor production 0 ∅ = Ok w /\
    let cfg := merge_config production ∅ in
    (In RateLimitGuard (app_middleware (web_app w))
     <-> truthy (cfg_get cfg "rateLimit") = true)
    /\ forall c : ctx,
         let globs := cfg_get (web_config w) "rateLimitIgnoredGlobs" in
         let opts := <["db" := redis_client]> (spread (cfg_get cfg "rateLimit")) in
         (forall found,
            nonempty_array globs = true ->
            multimatch production (VStr (ctx_path c)) globs = Ok found ->
            nonempty_array found = true ->
            rate_limit_guard production (web_config w) c = ([CallNext], Ok tt))
         /\ (nonempty_array globs = false
             \/ (exists found, multimatch production (VStr (ctx_path c)) globs = Ok found
                               /\ nonempty_array found = false) ->
             rate_limit_guard production (web_config w) c
             = ([CallRateLimit opts], ratelimit_run production opts c)).
Proof.
  destruct (constructor production 0 ∅) as [w|e] eqn:E;
    [|vm_compute in E; discriminate].
  exists w. split; [reflexivity|].
  exact (rate_limit_skipped_on_ignored_globs production 0 ∅ w E).
Defined.

Lemma no_host_no_content_security_policy_witness :
  (load_env bare !! "WEB_HOST"%string = None
   \/ exists s, load_env bare !! "WEB_HOST"%string = Some s /\ blank s = true)
  /\ defaultSrc bare = VNull
  /\ own_defaults bare !! "helmet"%string = Some (default_helmet bare)
  /\ get_prop (default_helmet bare) "contentSecurityPolicy" = Ok VNull
  /\ ((∅ : gmap string value) !! "helmet"%string = None ->
      get_prop (cfg_get (merge_config bare ∅) "helmet") "contentSecurityPolicy"
      = Ok VNull).
Proof.
  assert (H : load_env bare !! "WEB_HOST"%string = None
              \/ exists s, load_env bare !! "WEB_HOST"%string = Some s /\ blank s = true)
    by (left; reflexivity).
  split; [exact H|].
  exact (no_host_no_content_security_policy bare ∅ H).
Defined.

Lemma default_genSid_is_32_characters_witness :
  own_defaults bare !! "genSid"%string = Some (VFun GenSid)
  /\ genSid bare 3 [VNum 24] = genSid bare 3 []
  /\ genSid bare 3 [VNum 24]
     = cryptoRandomString_async bare 3 {["length" := VNum 32]}
  /\ exists s, genSid bare 3 [VNum 24] = Resolved s /\ String.length s = 32%nat.
Proof.
  exact (default_genSid_is_32_characters bare 3 [VNum 24] counter_random_length).
Defined.

Lemma protocol_selects_transport_witness :
  exists w, constructor production 7 {["protocol" := VStr "https"]} = Ok w /\
    let cfg := merge_config production {["protocol" := VStr "https"]} in
    let handler := callback (web_app w) in
    (cfg_get cfg "protocol" = VStr "https" ->
     web_server w = mk_server 7 (SecureHttp2 (cfg_get cfg "ssl")) handler)
    /\ (cfg_get cfg "protocol" <> VStr "https" ->
        web_server w = mk_server 7 PlainHttp handler).
Proof.
  destruct (constructor production 7 {["protocol" := VStr "https"]}) as [w|e] eqn:E;
    [|vm_compute in E; discriminate].
  exists w. split; [reflexivity|].
  exact (protocol_selects_transport production 7 _ w E).
Defined.

Lemma report_path_bypasses_csrf_and_rate_limit_witness :
  exists w, constructor production 0 ∅ = Ok w /\
    cfg_get (web_config w) "csrfIgnoredGlobs" = VArr [VStr "/report"]
    /\ cfg_get (web_config w) "rateLimitIgnoredGlobs" = VArr [VStr "/report"]
    /\ forall c : ctx, ctx_path c = "/report"%string ->
         csrf_guard production (web_config w) c = ([CallNext], Ok tt)
         /\ rate_limit_guard production (web_config w) c = ([CallNext], Ok tt).
Proof.
  destruct (constructor production 0 ∅) as [w|e] eqn:E;
    [|vm_compute in E; discriminate].
  exists w. split; [reflexivity|].
  exact (report_path_bypasses_csrf_and_rate_limit production 0 ∅ w E
           eq_refl eq_refl
           (ex_intro _ (VArr [VStr "/report"]) (conj eq_refl eq_refl))).
Defined.

(** ** The model at work *)

Example pipeline_of_the_defaults :
  pipeline_names (constructor production 0 ∅)
  = ["request-received"; "response-time"; "express-request-id"; "cabin";
     "rate limiting"; "koa-no-trailing-slash"; "koa-helmet";
     "koa-conditional-get"; "koa-etag"; "koa-compress"; "koa-favicon";
     "koa-better-static"; "koa-views"; "koa-isajax"; "koa-meta"; "state-helper";
     "koa-generic-session"; "koa-redirect-loop"; "koa-better-flash";
     "koa-bodyparser"; "koa-json"; "koa-methodoverride"; "csrf";
     "koa-404-handler"]%string.
Proof. vm_compute. reflexivity. Qed.

Example pipeline_with_everything_on :
  pipeline_names (constructor production 0 full_config)
  = ["request-received"; "koa-better-timeout"; "response-time";
     "express-request-id"; "cabin"; "before-setup"; "koa-basic-auth";
     "rate limiting"; "koa-no-trailing-slash"; "koa-helmet"; "i18n.middleware";
     "i18n.redirect"; "koa-conditional-get"; "koa-etag"; "kcors"; "koa-compress";
     "koa-cash"; "koa-cache-responses"; "koa-favicon"; "koa-better-static";
     "koa-views"; "koa-isajax"; "koa-meta"; "state-helper"; "koa-generic-session";
     "koa-redirect-loop"; "koa-better-flash"; "koa-bodyparser"; "koa-json";
     "koa-methodoverride"; "csrf"; "initialize"; "session"; "store-ip-address";
     "koa-404-handler"; "before-routes"; "router"]%string.
Proof. vm_compute. reflexivity. Qed.

Example no_csrf_in_test_mode :
  existsb (String.eqb "csrf")
    (pipeline_names (constructor (node_platform {["NODE_ENV" := "test"]}) 0 ∅))
  = false.
Proof. vm_compute. reflexivity. Qed.

Example routes_must_be_a_function :
  constructor production 0 {["routes" := obj []]}
  = Throw (TypeError "middleware must be a function!").
Proof. vm_compute. reflexivity. Qed.

Example guards_on_report_and_elsewhere :
  match constructor production 0 ∅ with
  | Ok w =>
      csrf_guard production (web_config w) (mk_ctx "/report" None) = ([CallNext], Ok tt)
      /\ fst (csrf_guard production (web_config w) (mk_ctx "/login" None))
         = [CallCsrf (csrf_options (web_config w))]
      /\ snd (csrf_guard production (web_config w) (mk_ctx "/login" None))
         = Throw (mk_error "Error" "Invalid CSRF token" (Some "at csrf") (Some 500) (Some 403))
      /\ fst (rate_limit_guard production (web_config w) (mk_ctx "/login" None))
         = [CallRateLimit (rate_limit_options (web_config w))]
  | Throw _ => False
  end.
Proof. vm_compute. repeat split. Qed.

(** * The rest of the constructor *)

(** ** What each step attaches *)

Lemma emits_ret {A} (a : A) : emits (ret a) [].
Proof. intros s a' s' H. injection H as _ <-. now rewrite app_nil_r. Qed.

Lemma emits_throw {A} (e : js_error) d : emits (@throw A e) d.
Proof. intros s a s' H. discriminate. Qed.

Lemma emits_use m : emits (app_use m) [m].
Proof. intros s a s' H. injection H as _ <-. reflexivity. Qed.

Lemma emits_set (f : app -> app) :
  (forall s, app_middleware (f s) = app_middleware s) ->
  emits (fun s => Ok (tt, f s)) [].
Proof. intros Hf s a s' H. injection H as _ <-. now rewrite Hf, app_nil_r. Qed.

Lemma emits_bind {A B} (m : M A) (k : A -> M B) d1 d2 :
  emits m d1 -> (forall a, emits (k a) d2) -> emits (bind m k) (d1 ++ d2).
Proof.
  intros Hm Hk s b s' H. unfold bind in H.
  destruct (m s) as [[a s1]|e] eqn:E; [|discriminate].
  rewrite (Hk a _ _ _ H), (Hm _ _ _ E). now rewrite app_assoc.
Qed.

Lemma emits_bind_nil {A B} (m : M A) (k : A -> M B) d :
  emits m [] -> (forall a, emits (k a) d) -> emits (bind m k) d.
Proof. intros Hm Hk. exact (emits_bind m k [] d Hm Hk). Qed.

Lemma emits_bind_cons {A B} (m : M A) (k : A -> M B) x d :
  emits m [x] -> (forall a, emits (k a) d) -> emits (bind m k) (x :: d).
Proof. intros Hm Hk. exact (emits_bind m k [x] d Hm Hk). Qed.

Lemma emits_lift_bind {A B} (r : result A) (k : A -> M B) d :
  (forall a, r = Ok a -> emits (k a) d) -> emits (bind (lift r) k) d.
Proof.
  intros Hk s b s' H. unfold bind, lift in H.
  destruct r as [a|e]; [|discriminate]. exact (Hk a eq_refl _ _ _ H).
Qed.

Lemma emits_when_use c m : emits (when c (app_use m)) (opt c m).
Proof. destruct c; [apply emits_use | apply emits_ret]. Qed.

Lemma customs_cons v vs : customs (v :: vs) = customs [v] ++ customs vs.
Proof. unfold customs. cbn. now destruct v. Qed.

Lemma emits_use_value v : emits (app_use_value v) (customs [v]).
Proof. destruct v; try apply emits_throw. apply emits_use. Qed.

Lemma emits_use_values vs : emits (app_use_values vs) (customs vs).
Proof.
  induction vs as [|v vs IH]; cbn [app_use_values].
  - apply emits_ret.
  - rewrite customs_cons. apply emits_bind; [apply emits_use_value | intros _; exact IH].
Qed.

Lemma prop_ok v k x : get_prop v k = Ok x -> prop v k = x.
Proof. unfold prop. now intros ->. Qed.

Lemma ret_of_ok v what r : call_value v what = Ok r -> ret_of v = r.
Proof.
  unfold ret_of, call_value. destruct v; try discriminate. now intros ->.
Qed.

Section Steps.
Variable P : platform.
Variable cfg : gmap string value.

Lemma emits_setup_flags : emits (setup_flags P cfg) [].
Proof.
  unfold setup_flags, set_proxy, set_cache.
  apply emits_bind_nil; [now apply emits_set | intros _].
  apply emits_lift_bind; intros locals _.
  apply emits_lift_bind; intros cache _. now apply emits_set.
Qed.

Lemma emits_run_hook name : emits (run_hook cfg name) (hook_middleware cfg name).
Proof.
  unfold run_hook, hook_middleware.
  destruct (cfg_get cfg name) as [| | | | | | |[]]; cbn;
    try apply emits_ret; try apply emits_throw.
  apply emits_use_values.
Qed.

Lemma emits_use_i18n : emits (use_i18n cfg) (i18n_middleware cfg).
Proof.
  unfold use_i18n, i18n_middleware.
  destruct (truthy (cfg_get cfg "i18n")); cbn [when]; [|apply emits_ret].
  apply emits_lift_bind; intros c Hc. rewrite (prop_ok _ _ _ Hc).
  destruct (truthy c).
  - apply emits_lift_bind; intros mw Hmw.
    rewrite customs_cons, (prop_ok _ _ _ Hmw).
    apply emits_bind; [apply emits_use_value | intros _].
    apply emits_lift_bind; intros rd Hrd. rewrite (prop_ok _ _ _ Hrd).
    apply emits_use_value.
  - apply emits_bind_cons; [apply emits_use | intros _]. apply emits_use.
Qed.

Lemma emits_use_favicon :
  emits (use_favicon cfg)
        (opt (truthy (cfg_get cfg "favicon"))
             (Favicon (prop (cfg_get cfg "favicon") "path")
                      (prop (cfg_get cfg "favicon") "options"))).
Proof.
  unfold use_favicon.
  destruct (truthy (cfg_get cfg "favicon")); cbn [when opt]; [|apply emits_ret].
  apply emits_lift_bind; intros p Hp.
  apply emits_lift_bind; intros o Ho.
  rewrite (prop_ok _ _ _ Hp), (prop_ok _ _ _ Ho). apply emits_use.
Qed.

Lemma emits_use_views :
  emits (use_views cfg)
        [Views (prop (cfg_get cfg "views") "root")
               (lodash_extend (prop (cfg_get cfg "views") "options")
                              (prop (cfg_get cfg "views") "locals"))].
Proof.
  unfold use_views.
  apply emits_lift_bind; intros root Hr.
  apply emits_lift_bind; intros options Ho.
  apply emits_lift_bind; intros locals Hl.
  rewrite (prop_ok _ _ _ Hr), (prop_ok _ _ _ Ho), (prop_ok _ _ _ Hl).
  apply emits_use.
Qed.

Lemma emits_use_state_helper :
  emits (use_state_helper cfg) [StateHelperMw (prop (cfg_get cfg "views") "locals")].
Proof.
  unfold use_state_helper. apply emits_lift_bind; intros locals Hl.
  rewrite (prop_ok _ _ _ Hl). apply emits_use.
Qed.

Lemma emits_use_session : emits (use_session cfg) [Session (session_options cfg)].
Proof.
  unfold use_session, set_keys.
  apply emits_bind_nil; [now apply emits_set | intros _]. apply emits_use.
Qed.

Lemma emits_use_method_override :
  emits (use_method_override cfg) (method_override_middleware cfg).
Proof.
  unfold use_method_override, method_override_middleware.
  destruct (truthy (cfg_get cfg "methodOverride")); cbn [when]; [|apply emits_ret].
  apply emits_lift_bind; intros getters Hg.
  assert (spread_args (cfg_get cfg "methodOverride") "" = Ok getters) as ->
    by (destruct (cfg_get cfg "methodOverride"); try discriminate; exact Hg).
  apply emits_use.
Qed.

Lemma emits_use_passport : emits (use_passport cfg) (passport_middleware cfg).
Proof.
  unfold use_passport, passport_middleware.
  destruct (truthy (cfg_get cfg "passport")); cbn [when]; [|apply emits_ret].
  apply emits_lift_bind; intros i Hi. rewrite (prop_ok _ _ _ Hi).
  apply emits_lift_bind; intros mi Hmi. rewrite (ret_of_ok _ _ _ Hmi).
  rewrite customs_cons. apply emits_bind; [apply emits_use_value | intros _].
  apply emits_lift_bind; intros sv Hs. rewrite (prop_ok _ _ _ Hs).
  apply emits_lift_bind; intros ms Hms. rewrite (ret_of_ok _ _ _ Hms).
  apply emits_use_value.
Qed.

Lemma emits_use_routes : emits (use_routes cfg) (routes_middleware cfg).
Proof.
  unfold use_routes, routes_middleware.
  destruct (truthy (cfg_get cfg "routes")); cbn [when]; [|apply emits_ret].
  apply emits_lift_bind; intros rr Hrr. rewrite (prop_ok _ _ _ Hrr).
  destruct (isFunction rr).
  - apply emits_lift_bind; intros r Hr. rewrite (ret_of_ok _ _ _ Hr).
    apply emits_use_value.
  - apply emits_use_value.
Qed.

Lemma emits_assemble : emits (assemble P cfg) (pipeline_of P cfg).
Proof.
  unfold assemble, pipeline_of.
  apply emits_bind_nil; [apply emits_setup_flags | intros _].
  apply emits_bind_cons; [apply emits_use | intros _].
  apply emits_bind; [apply emits_when_use | intros _].
  do 3 (apply emits_bind_cons; [apply emits_use | intros _]).
  apply emits_bind; [apply emits_run_hook | intros _].
  do 2 (apply emits_bind; [apply emits_when_use | intros _]).
  apply emits_bind_cons; [apply emits_use | intros _].
  apply emits_bind; [apply emits_when_use | intros _].
  apply emits_bind; [apply emits_use_i18n | intros _].
  do 2 (apply emits_bind_cons; [apply emits_use | intros _]).
  do 4 (apply emits_bind; [apply emits_when_use | intros _]).
  apply emits_bind; [apply emits_use_favicon | intros _].
  apply emits_bind; [apply emits_when_use | intros _].
  apply (emits_bind _ _ [_]); [apply emits_use_views | intros _].
  apply emits_bind_cons; [apply emits_use | intros _].
  apply emits_bind; [apply emits_when_use | intros _].
  apply (emits_bind _ _ [_]); [apply emits_use_state_helper | intros _].
  apply (emits_bind _ _ [_]); [apply emits_use_session | intros _].
  apply emits_bind; [apply emits_when_use | intros _].
  do 3 (apply emits_bind_cons; [apply emits_use | intros _]).
  apply emits_bind; [apply emits_use_method_override | intros _].
  apply emits_bind; [apply emits_when_use | intros _].
  apply emits_bind; [apply emits_use_passport | intros _].
  apply emits_bind; [apply emits_when_use | intros _].
  apply emits_bind_cons; [apply emits_use | intros _].
  apply emits_bind; [apply emits_run_hook | intros _].
  apply emits_use_routes.
Qed.
End Steps.

(** X1: the middleware of an instance are those of [pipeline_of], in
    that order, and its server serves exactly them. *)
Theorem constructor_pipeline P sid config w :
  constructor P sid config = Ok w ->
  app_middleware (web_app w) = pipeline_of P (merge_config P config)
  /\ srv_handler (web_server w) = pipeline_of P (merge_config P config).
Proof.
  intros H. destruct (constructor_inv _ _ _ _ H) as (a & Ha & Hw & Hs & _).
  pose proof (emits_assemble P _ _ _ _ Ha) as E. cbn in E.
  rewrite Hs, Hw. split; [exact E|].
  unfold create_server. now destruct (strict_eq_str _ _).
Qed.

(** ** The order of the package middleware *)

Lemma in_order_weaken k k' l :
  (k' <= k)%nat -> in_order k l = true -> in_order k' l = true.
Proof.
  revert k k'. induction l as [|m l IH]; intros k k' Hk H; cbn in *; [reflexivity|].
  destruct (is_custom m); [now apply (IH k)|].
  apply andb_true_iff in H as [H1 H2]. apply Nat.ltb_lt in H1.
  apply andb_true_iff. split; [apply Nat.ltb_lt; lia | exact H2].
Qed.

Lemma in_order_cons k m l :
  is_custom m = false -> (k < position m)%nat ->
  in_order (position m) l = true -> in_order k (m :: l) = true.
Proof.
  intros Hc Hk Hl. cbn. rewrite Hc, Hl.
  apply andb_true_iff. split; [now apply Nat.ltb_lt | reflexivity].
Qed.

Lemma in_order_opt k c m l :
  is_custom m = false -> (k < position m)%nat ->
  in_order (position m) l = true -> in_order k (opt c m ++ l) = true.
Proof.
  intros Hc Hk Hl. destruct c; cbn [opt Datatypes.app].
  - now apply in_order_cons.
  - apply (in_order_weaken (position m)); [lia | exact Hl].
Qed.

Lemma in_order_customs k vs l :
  in_order k l = true -> in_order k (customs vs ++ l) = true.
Proof.
  intros Hl. induction vs as [|v vs IH]; [exact Hl|].
  rewrite customs_cons, <- app_assoc. destruct v; cbn; exact IH.
Qed.

Lemma in_order_hook k cfg name l :
  in_order k l = true -> in_order k (hook_middleware cfg name ++ l) = true.
Proof.
  intros Hl. unfold hook_middleware.
  destruct (cfg_get cfg name) as [| | | | | | |[]]; try exact Hl.
  now apply in_order_customs.
Qed.

Lemma in_order_pipeline P cfg : in_order 0 (pipeline_of P cfg) = true.
Proof.
  unfold pipeline_of.
  apply in_order_cons; [reflexivity | cbn; lia |].
  apply in_order_opt; [reflexivity | cbn; lia |].
  do 3 (apply in_order_cons; [reflexivity | cbn; lia |]).
  apply in_order_hook.
  do 2 (apply in_order_opt; [reflexivity | cbn; lia |]).
  apply in_order_cons; [reflexivity | cbn; lia |].
  apply in_order_opt; [reflexivity | cbn; lia |].
  apply (in_order_weaken 9); [cbn; lia|].
  assert (Hi : forall l, in_order 11 l = true ->
                         in_order 9 (i18n_middleware cfg ++ l) = true).
  { intros l Hl. unfold i18n_middleware.
    destruct (truthy (cfg_get cfg "i18n"));
      [|apply (in_order_weaken 11); [lia | exact Hl]].
    destruct (truthy (prop (cfg_get cfg "i18n") "config")).
    - apply in_order_customs. apply (in_order_weaken 11); [lia | exact Hl].
    - apply in_order_cons; [reflexivity | cbn; lia |].
      apply in_order_cons; [reflexivity | cbn; lia | exact Hl]. }
  apply Hi.
  do 2 (apply in_order_cons; [reflexivity | cbn; lia |]).
  do 6 (apply in_order_opt; [reflexivity | cbn; lia |]).
  do 2 (apply in_order_cons; [reflexivity | cbn; lia |]).
  apply in_order_opt; [reflexivity | cbn; lia |].
  do 2 (apply in_order_cons; [reflexivity | cbn; lia |]).
  apply in_order_opt; [reflexivity | cbn; lia |].
  do 3 (apply in_order_cons; [reflexivity | cbn; lia |]).
  assert (Hm : forall l, in_order 29 l = true ->
                         in_order 28 (method_override_middleware cfg ++ l) = true).
  { intros l Hl. unfold method_override_middleware.
    destruct (truthy (cfg_get cfg "methodOverride"));
      [|apply (in_order_weaken 29); [lia | exact Hl]].
    destruct (spread_args _ _);
      [|apply (in_order_weaken 29); [lia | exact Hl]].
    apply in_order_cons; [reflexivity | cbn; lia | exact Hl]. }
  apply Hm.
  apply in_order_opt; [reflexivity | cbn; lia |].
  assert (Hp : forall l, in_order 30 l = true ->
                         in_order 30 (passport_middleware cfg ++ l) = true).
  { intros l Hl. unfold passport_middleware.
    destruct (truthy (cfg_get cfg "passport")); [|exact Hl].
    now apply in_order_customs. }
  apply Hp.
  apply in_order_opt; [reflexivity | cbn; lia |].
  apply in_order_cons; [reflexivity | cbn; lia |].
  apply in_order_hook.
  rewrite <- (app_nil_r (routes_middleware cfg)). unfold routes_middleware.
  destruct (truthy (cfg_get cfg "routes")); [|reflexivity].
  destruct (isFunction _); now apply in_order_customs.
Qed.

Lemma in_order_above k l (i : nat) x :
  in_order k l = true -> l !! i = Some x -> is_custom x = false ->
  (k < position x)%nat.
Proof.
  revert k i. induction l as [|m l IH]; intros k i H Hi Hx; [discriminate|].
  cbn in H. destruct i as [|i]; cbn in Hi.
  - injection Hi as ->. rewrite Hx in H.
    apply andb_true_iff in H as [H _]. now apply Nat.ltb_lt in H.
  - destruct (is_custom m); [exact (IH _ _ H Hi Hx)|].
    apply andb_true_iff in H as [H1 H2]. apply Nat.ltb_lt in H1.
    pose proof (IH _ _ H2 Hi Hx). lia.
Qed.

Lemma in_order_pairs k l (i j : nat) x y :
  in_order k l = true -> (i < j)%nat ->
  l !! i = Some x -> l !! j = Some y ->
  is_custom x = false -> is_custom y = false ->
  (position x < position y)%nat.
Proof.
  revert k i j. induction l as [|m l IH]; intros k i j H Hij Hi Hj Hx Hy;
    [discriminate|].
  cbn in H. destruct j as [|j]; [lia|]. cbn in Hj.
  destruct i as [|i]; cbn in Hi.
  - injection Hi as ->. rewrite Hx in H. apply andb_true_iff in H as [_ H].
    exact (in_order_above _ _ _ _ H Hj Hy).
  - destruct (is_custom m).
    + apply (IH k i j); try assumption. lia.
    + apply andb_true_iff in H as [_ H]. apply (IH (position m) i j); try assumption. lia.
Qed.

Lemma position_bound m : (position m <= 32)%nat.
Proof. destruct m; cbn; lia. Qed.

(** X2: whatever the configuration, any two middleware of the packages
    stand in an instance's pipeline in the order of their [app.use] calls
    in the source; in particular none of them is attached twice. *)
Theorem package_middleware_in_source_order P sid config w (i j : nat) x y :
  constructor P sid config = Ok w ->
  app_middleware (web_app w) !! i = Some x ->
  app_middleware (web_app w) !! j = Some y ->
  is_custom x = false -> is_custom y = false ->
  ((i < j)%nat <-> (position x < position y)%nat)
  /\ (position x = position y -> i = j).
Proof.
  intros H Hi Hj Hx Hy.
  destruct (constructor_pipeline _ _ _ _ H) as [Hp _]. rewrite Hp in Hi, Hj.
  pose proof (in_order_pipeline P (merge_config P config)) as Ho.
  assert (Hlt : forall (a b : nat) u v,
             (a < b)%nat -> pipeline_of P (merge_config P config) !! a = Some u ->
             pipeline_of P (merge_config P config) !! b = Some v ->
             is_custom u = false -> is_custom v = false ->
             (position u < position v)%nat)
    by (intros a b u v; apply (in_order_pairs 0); exact Ho).
  split; [split|].
  - intros Hij. exact (Hlt _ _ _ _ Hij Hi Hj Hx Hy).
  - intros Hxy. destruct (Nat.lt_trichotomy i j) as [Hlt'|[->|Hgt]]; [exact Hlt'| |].
    + rewrite Hi in Hj. injection Hj as ->. lia.
    + pose proof (Hlt _ _ _ _ Hgt Hj Hi Hy Hx). lia.
  - intros Hxy. destruct (Nat.lt_trichotomy i j) as [Hlt'|[->|Hgt]]; [|reflexivity|].
    + pose proof (Hlt _ _ _ _ Hlt' Hi Hj Hx Hy). lia.
    + pose proof (Hlt _ _ _ _ Hgt Hj Hi Hy Hx). lia.
Qed.

(** X3: the first middleware of every instance is the request-received
    one, the 404 handler is always attached, and everything attached after
    the 404 handler is a function of the caller (from [hookBeforeRoutes] or
    [routes]). *)
Theorem pipeline_first_and_last P sid config w :
  constructor P sid config = Ok w ->
  let pipeline := app_middleware (web_app w) in
  pipeline !! 0%nat = Some RequestReceived
  /\ In Koa404Handler pipeline
  /\ forall (i j : nat) y,
       pipeline !! i = Some Koa404Handler -> (i < j)%nat ->
       pipeline !! j = Some y -> is_custom y = true.
Proof.
  intros H pipeline.
  destruct (constructor_pipeline _ _ _ _ H) as [Hp _].
  split; [unfold pipeline; now rewrite Hp|]. split.
  - unfold pipeline. rewrite Hp. unfold pipeline_of.
    repeat (first [ apply in_or_app; left; cbn; tauto
                  | apply in_or_app; right
                  | right ]).
  - intros i j y Hi Hij Hj. destruct (is_custom y) eqn:Hy; [reflexivity|].
    unfold pipeline in Hi, Hj. rewrite Hp in Hi, Hj.
    pose proof (in_order_pairs 0 _ _ _ _ _ (in_order_pipeline _ _) Hij Hi Hj
                               eq_refl Hy) as Hlt.
    pose proof (position_bound y). cbn in Hlt. lia.
Qed.

(** ** The settings of the application *)

Lemma sets_weaken {A} (m : M A) f g :
  sets m f -> (forall x, f x = g x) -> sets m g.
Proof. intros Hm Hfg s a s' H. rewrite <- Hfg. exact (Hm _ _ _ H). Qed.

Lemma sets_ret {A} (a : A) : sets (ret a) (fun x => x).
Proof. intros s a' s' H. injection H as _ <-. reflexivity. Qed.

Lemma sets_lift {A} (r : result A) : sets (lift r) (fun x => x).
Proof.
  intros s a s' H. unfold lift in H. destruct r; [|discriminate].
  injection H as _ <-. reflexivity.
Qed.

Lemma sets_throw {A} (e : js_error) f : sets (@throw A e) f.
Proof. intros s a s' H. discriminate. Qed.

Lemma sets_use m : sets (app_use m) (fun x => x).
Proof. intros s a s' H. injection H as _ <-. reflexivity. Qed.

Lemma sets_bind {A B} (m : M A) (k : A -> M B) f g :
  sets m f -> (forall a, sets (k a) g) -> sets (bind m k) (fun x => g (f x)).
Proof.
  intros Hm Hk s b s' H. unfold bind in H.
  destruct (m s) as [[a s1]|e] eqn:E; [|discriminate].
  now rewrite (Hk a _ _ _ H), (Hm _ _ _ E).
Qed.

Lemma sets_bind_same {A B} (m : M A) (k : A -> M B) g :
  sets m (fun x => x) -> (forall a, sets (k a) g) -> sets (bind m k) g.
Proof. intros Hm Hk. exact (sets_bind m k _ g Hm Hk). Qed.

Lemma sets_when c (m : M unit) :
  sets m (fun x => x) -> sets (when c m) (fun x => x).
Proof. intros H. destruct c; [exact H | apply sets_ret]. Qed.

Lemma sets_use_value v : sets (app_use_value v) (fun x => x).
Proof. destruct v; try apply sets_throw. apply sets_use. Qed.

Lemma sets_use_values vs : sets (app_use_values vs) (fun x => x).
Proof.
  induction vs as [|v vs IH]; cbn [app_use_values].
  - apply sets_ret.
  - apply sets_bind_same; [apply sets_use_value | intros _; exact IH].
Qed.

Lemma sets_call_with_app f : sets (call_with_app f) (fun x => x).
Proof.
  destruct f; cbn; try apply sets_throw; [apply sets_ret | apply sets_use_values].
Qed.

(** Steps that leave the settings alone. *)
Ltac untouched :=
  repeat first
    [ apply sets_ret
    | apply sets_lift
    | apply sets_throw
    | apply sets_use
    | apply sets_use_value
    | apply sets_call_with_app
    | apply sets_when
    | (apply sets_bind_same; [|intros])
    | match goal with |- sets (if ?c then _ else _) _ => destruct c end
    | match goal with |- sets (match ?v with _ => _ end) _ => destruct v end ].

Section Settings.
Variable P : platform.
Variable cfg : gmap string value.

Lemma sets_setup_flags :
  sets (setup_flags P cfg)
       (fun x => (fst (fst x),
                  boolean P (getenv P "TRUST_PROXY"),
                  boolean P (prop (prop (cfg_get cfg "views") "locals") "cache"))).
Proof.
  intros s a s' H. unfold setup_flags, bind, lift, set_proxy, set_cache in H.
  unfold prop.
  destruct (get_prop (cfg_get cfg "views") "locals") as [locals|]; [|discriminate].
  destruct (get_prop locals "cache") as [cache|]; [|discriminate].
  injection H as _ <-. reflexivity.
Qed.

Lemma sets_use_session :
  sets (use_session cfg)
       (fun x => (cfg_get cfg "sessionKeys", snd (fst x), snd x)).
Proof.
  intros s a s' H. unfold use_session, bind, set_keys, app_use in H.
  injection H as _ <-. reflexivity.
Qed.

Lemma sets_assemble :
  sets (assemble P cfg)
       (fun _ => (cfg_get cfg "sessionKeys",
                  boolean P (getenv P "TRUST_PROXY"),
                  boolean P (prop (prop (cfg_get cfg "views") "locals") "cache"))).
Proof.
  unfold assemble.
  eapply sets_weaken.
  - apply sets_bind; [apply sets_setup_flags | intros _].
    do 23 (apply sets_bind_same;
           [unfold use_timeout, run_hook, use_auth, use_rate_limit, use_helmet,
              use_i18n, use_cors, use_compress, use_koa_cash, use_cache_responses,
              use_favicon, use_serve_static, use_views, use_meta, use_state_helper;
            untouched | intros _]).
    apply sets_bind; [apply sets_use_session | intros _].
    unfold use_redirect_loop, use_method_override, use_csrf, use_passport,
      use_store_ip_address, run_hook, use_routes.
    untouched.
  - intros [[k p] c]. reflexivity.
Qed.
End Settings.

(** X4: on every instance [app.keys] is [config.sessionKeys], [app.proxy]
    is [boolean(process.env.TRUST_PROXY)] and [app.cache] is
    [boolean(config.views.locals.cache)]: the hooks and the later steps
    leave them as set. *)
Theorem application_settings P sid config w :
  constructor P sid config = Ok w ->
  let cfg := merge_config P config in
  app_keys (web_app w) = cfg_get cfg "sessionKeys"
  /\ app_proxy (web_app w) = boolean P (getenv P "TRUST_PROXY")
  /\ app_cache (web_app w)
     = boolean P (prop (prop (cfg_get cfg "views") "locals") "cache").
Proof.
  intros H cfg. destruct (constructor_inv _ _ _ _ H) as (a & Ha & -> & _).
  pose proof (sets_assemble P _ _ _ _ Ha) as E. unfold settings in E.
  injection E as E1 E2 E3. repeat split; assumption.
Qed.

(** ** Configurations the constructor rejects *)

Lemma fails_throw {A} (e : js_error) : fails (@throw A e).
Proof. intros s. now exists e. Qed.

Lemma fails_bind_l {A B} (m : M A) (k : A -> M B) : fails m -> fails (bind m k).
Proof. intros Hm s. destruct (Hm s) as [e He]. exists e. unfold bind. now rewrite He. Qed.

Lemma fails_bind_r {A B} (m : M A) (k : A -> M B) :
  (forall a, fails (k a)) -> fails (bind m k).
Proof.
  intros Hk s. unfold bind. destruct (m s) as [[a s1]|e]; [apply Hk | now exists e].
Qed.

Lemma fails_lift_bind {A B} (r : result A) (k : A -> M B) :
  (forall a, r = Ok a -> fails (k a)) -> fails (bind (lift r) k).
Proof.
  intros Hk s. unfold bind, lift. destruct r as [a|e]; [now apply Hk | now exists e].
Qed.

Lemma fails_use_value v : isFunction v = false -> fails (app_use_value v).
Proof. destruct v; try discriminate; intros _; apply fails_throw. Qed.

Lemma fails_constructor P sid config :
  fails (assemble P (merge_config P config)) ->
  exists e, constructor P sid config = Throw e.
Proof.
  intros H. destruct (H new_koa) as [e He]. exists e. unfold constructor. now rewrite He.
Qed.

(** X5: a configuration whose [views] is [undefined] or [null], or
    whose [views.locals] is, makes the constructor throw a [TypeError]
    before anything is attached. *)
Theorem views_without_locals_is_rejected P sid config :
  let views := cfg_get (merge_config P config) "views" in
  nullish views || nullish (prop views "locals") = true ->
  exists msg, constructor P sid config = Throw (TypeError msg).
Proof.
  intros views H. unfold constructor, assemble, setup_flags, set_proxy.
  unfold bind at 1 2 3. unfold lift. fold views. unfold prop in H.
  destruct views; cbn in *; try discriminate; eexists; try reflexivity.
  destruct (o !! "locals"%string) as [[]|]; cbn in *; try discriminate; reflexivity.
Qed.


(** X7: a truthy [routes] yields a middleware only if it is a function
    or has a function [routes] that returns one; otherwise the constructor
    throws, so a returned instance never silently lacks its routes. *)
Theorem routes_must_yield_a_function P sid config :
  let cfg := merge_config P config in
  truthy (cfg_get cfg "routes") = true ->
  routes_middleware cfg = [] ->
  exists e, constructor P sid config = Throw e.
Proof.
  intros cfg Ht Hr. apply fails_constructor. fold cfg. unfold assemble.
  do 35 (apply fails_bind_r; intros _).
  unfold use_routes, routes_middleware in *. rewrite Ht in *. cbn [when].
  apply fails_lift_bind. intros rr Hrr. rewrite (prop_ok _ _ _ Hrr) in Hr.
  destruct (isFunction rr).
  - apply fails_lift_bind. intros r Hc. rewrite (ret_of_ok _ _ _ Hc) in Hr.
    apply fails_use_value. now destruct r.
  - apply fails_use_value. now destruct (cfg_get cfg "routes").
Qed.

(** X8: a truthy [passport] must have [initialize] and [session]
    functions that return functions; otherwise the constructor throws. *)
Theorem passport_must_yield_two_functions P sid config :
  let cfg := merge_config P config in
  truthy (cfg_get cfg "passport") = true ->
  (length (passport_middleware cfg) < 2)%nat ->
  exists e, constructor P sid config = Throw e.
Proof.
  intros cfg Ht Hp. apply fails_constructor. fold cfg. unfold assemble.
  do 31 (apply fails_bind_r; intros _). apply fails_bind_l.
  unfold use_passport, passport_middleware in *. rewrite Ht in *. cbn [when].
  apply fails_lift_bind. intros i Hi. rewrite (prop_ok _ _ _ Hi) in Hp.
  apply fails_lift_bind. intros mi Hmi. rewrite (ret_of_ok _ _ _ Hmi) in Hp.
  destruct (isFunction mi) eqn:Emi;
    [|apply fails_bind_l; now apply fails_use_value].
  apply fails_bind_r. intros _.
  apply fails_lift_bind. intros sv Hsv. rewrite (prop_ok _ _ _ Hsv) in Hp.
  apply fails_lift_bind. intros msv Hms. rewrite (ret_of_ok _ _ _ Hms) in Hp.
  apply fails_use_value. destruct mi; try discriminate.
  destruct msv; try reflexivity. cbn in Hp. lia.
Qed.

(** ** Options the constructor passes on *)










(** ** The guards, beyond the ignored paths *)

(** X11: for a request the CSRF guard does not ignore, the guard runs
    the validation once and nothing else, and a passing validation passes.
    When the validation throws, the guard throws what [ctx.throw] makes of
    an error: of a new Boom 403 error with the same message and, when it
    has one, the same stack if the error is named [ForbiddenError], and of
    the error itself otherwise. *)
Theorem csrf_guard_validates_and_rewraps P cfg (c : ctx) :
  ignored P (cfg_get cfg "csrfIgnoredGlobs") c = Ok false ->
  let outcome := csrf_run P (csrf_options cfg) c in
  fst (csrf_guard P cfg c) = [CallCsrf (csrf_options cfg)]
  /\ (forall u, outcome = Ok u -> snd (csrf_guard P cfg c) = Ok u)
  /\ (forall err, outcome = Throw err ->
        err_name err = "ForbiddenError"%string ->
        exists b, snd (csrf_guard P cfg c) = Throw (ctx_throw P b)
          /\ err_boom b = Some 403
          /\ err_status b = None
          /\ err_message b = err_message err
          /\ forall st, err_stack err = Some st -> st <> ""%string ->
                        err_stack b = Some st)
  /\ (forall err, outcome = Throw err ->
        err_name err <> "ForbiddenError"%string ->
        snd (csrf_guard P cfg c) = Throw (ctx_throw P err)).
Proof.
  intros Hi outcome. unfold csrf_guard. rewrite Hi. cbn [fst snd]. fold outcome.
  split; [reflexivity|]. split; [intros u ->; reflexivity|]. split.
  - intros err -> Hn. unfold csrf_rethrow. eexists. split; [reflexivity|].
    unfold csrf_rewrap. rewrite Hn. cbn.
    destruct (err_stack err) as [st|] eqn:Es.
    + destruct (String.eqb st "") eqn:E; cbn.
      * repeat split. intros st' Hst Hne. injection Hst as <-.
        apply String.eqb_eq in E. contradiction.
      * repeat split. intros st' Hst _. congruence.
    + repeat split. intros st Hst. discriminate.
  - intros err -> Hn. unfold csrf_rethrow, csrf_rewrap.
    apply String.eqb_neq in Hn. rewrite Hn, andb_false_r. reflexivity.
Qed.

(** X12: a guard makes at most one call: when it calls [next] itself
    it does not run its package, and when [multimatch] throws on a
    non-empty pattern array it makes no call at all and throws the same
    error. *)
Theorem guards_make_one_call_at_most P cfg (c : ctx) :
  let rate := rate_limit_guard P cfg c in
  let csrf := csrf_guard P cfg c in
  (length (fst rate) <= 1)%nat /\ (length (fst csrf) <= 1)%nat
  /\ (In CallNext (fst rate) -> forall o, ~ In (CallRateLimit o) (fst rate))
  /\ (In CallNext (fst csrf) -> forall o, ~ In (CallCsrf o) (fst csrf))
  /\ (forall e,
        nonempty_array (cfg_get cfg "rateLimitIgnoredGlobs") = true ->
        multimatch P (VStr (ctx_path c)) (cfg_get cfg "rateLimitIgnoredGlobs") = Throw e ->
        rate = ([], Throw e))
  /\ (forall e,
        nonempty_array (cfg_get cfg "csrfIgnoredGlobs") = true ->
        multimatch P (VStr (ctx_path c)) (cfg_get cfg "csrfIgnoredGlobs") = Throw e ->
        csrf = ([], Throw e)).
Proof.
  intros rate csrf. unfold rate, csrf, rate_limit_guard, csrf_guard.
  repeat split.
  - destruct (ignored P _ c) as [[]|]; cbn; lia.
  - destruct (ignored P _ c) as [[]|]; cbn; lia.
  - destruct (ignored P _ c) as [[]|]; cbn; intuition discriminate.
  - destruct (ignored P _ c) as [[]|]; cbn; intuition discriminate.
  - intros e Hg Hm. unfold ignored. now rewrite Hg, Hm.
  - intros e Hg Hm. unfold ignored. now rewrite Hg, Hm.
Qed.

(** ** Defaults and the environment *)

Lemma blank_isSANB s : isSANB (VStr s) = negb (blank s).
Proof. reflexivity. Qed.

(** X13: the default [helmet.contentSecurityPolicy] is [null] exactly
    when [WEB_HOST] was absent or blank as the module was loaded (blank as
    [is-string-blank] has it, the no-break space and the other Unicode
    blanks of its table included); in every other case it is an object
    whose [directives.defaultSrc] starts with ['self'] and [data:] and
    names the host. *)
Theorem content_security_policy_null_iff P :
  (get_prop (default_helmet P) "contentSecurityPolicy" = Ok VNull
   <-> (load_env P !! "WEB_HOST"%string = None
        \/ exists s, load_env P !! "WEB_HOST"%string = Some s /\ blank s = true))
  /\ (forall h, load_env P !! "WEB_HOST"%string = Some h -> blank h = false ->
        prop (prop (prop (default_helmet P) "contentSecurityPolicy") "directives")
             "defaultSrc"
        = VArr [VStr "'self'"; VStr "data:"; VStr ("*." ++ h)%string;
                VStr ("*." ++ h ++ ":*")%string; VStr h; VStr (h ++ ":*")%string])
  /\ blank (String (ascii_of_nat 194) (String (ascii_of_nat 160) "")) = true
  /\ blank " example.com " = false.
Proof.
  assert (Hset : forall h, load_env P !! "WEB_HOST"%string = Some h -> blank h = false ->
            defaultSrc P
            = VArr [VStr "'self'"; VStr "data:"; VStr ("*." ++ h)%string;
                    VStr ("*." ++ h ++ ":*")%string; VStr h; VStr (h ++ ":*")%string]).
  { intros h Hh Hb. unfold defaultSrc, getenv_at_load. rewrite Hh, blank_isSANB, Hb.
    reflexivity. }
  split; [split|split; [|split; reflexivity]].
  - intros H. destruct (load_env P !! "WEB_HOST"%string) as [h|] eqn:Eh; [|now left].
    right. exists h. split; [reflexivity|].
    destruct (blank h) eqn:Eb; [reflexivity|].
    unfold default_helmet in H. rewrite (Hset h eq_refl Eb) in H.
    cbn in H. discriminate.
  - intros H.
    assert (Hd : defaultSrc P = VNull).
    { unfold defaultSrc, getenv_at_load.
      destruct H as [->|(s & -> & Hs)]; [reflexivity|].
      now rewrite blank_isSANB, Hs. }
    unfold default_helmet. rewrite Hd. reflexivity.
  - intros h Hh Hb. unfold default_helmet. rewrite (Hset h Hh Hb). reflexivity.
Qed.

Lemma split_comma_nonempty s : split_comma s <> [].
Proof.
  destruct s as [|c s]; cbn; [discriminate|].
  destruct (Ascii.eqb c ","); [discriminate|].
  destruct (split_comma s); discriminate.
Qed.

Lemma join_comma_cons w ws :
  ws <> [] -> join_comma (w :: ws) = (w ++ "," ++ join_comma ws)%string.
Proof. destruct ws; [contradiction | reflexivity]. Qed.

Lemma join_split_comma s : join_comma (split_comma s) = s.
Proof.
  induction s as [|c s IH]; [reflexivity|]. cbn [split_comma].
  destruct (Ascii.eqb c ",") eqn:Ec.
  - apply Ascii.eqb_eq in Ec. subst c.
    rewrite join_comma_cons by apply split_comma_nonempty. now rewrite IH.
  - destruct (split_comma s) as [|w ws] eqn:Es; [now destruct (split_comma_nonempty s)|].
    rewrite <- IH. destruct ws; reflexivity.
Qed.

Lemma split_comma_no_comma s :
  Forall (fun w => has_comma w = false) (split_comma s).
Proof.
  induction s as [|c s IH]; cbn [split_comma]; [repeat constructor|].
  destruct (Ascii.eqb c ",") eqn:Ec; [constructor; [reflexivity | exact IH]|].
  destruct (split_comma s) as [|w ws]; [repeat constructor; cbn; now rewrite Ec|].
  inversion IH as [|? ? Hw Hws]; subst.
  constructor; [cbn; now rewrite Ec, Hw | exact Hws].
Qed.

(** X14: when the caller gives no [sessionKeys], the instance signs
    with a non-empty array of comma-free strings: the pieces of
    [SESSION_KEYS], which joined by commas give [SESSION_KEYS] back, or
    [['lad']] when the variable is unset or empty. *)
Theorem default_session_keys P config :
  config !! "sessionKeys"%string = None ->
  exists keys,
    cfg_get (merge_config P config) "sessionKeys" = VArr (map VStr keys)
    /\ keys <> []
    /\ Forall (fun w => has_comma w = false) keys
    /\ match env P !! "SESSION_KEYS"%string with
       | Some s => if String.eqb s "" then keys = ["lad"%string]
                   else join_comma keys = s
       | None => keys = ["lad"%string]
       end.
Proof.
  intros Hc.
  assert (Hlad : Forall (fun w => has_comma w = false) ["lad"%string])
    by (repeat constructor).
  destruct (env P !! "SESSION_KEYS"%string) as [s|] eqn:Es.
  - destruct (String.eqb s "") eqn:Ee.
    + exists ["lad"%string]. split; [|now repeat split].
      apply merge_lookup_own; [exact Hc|]. cbn. unfold getenv. rewrite Es. cbn.
      now rewrite Ee.
    + exists (split_comma s). split; [|split; [apply split_comma_nonempty|split]].
      * apply merge_lookup_own; [exact Hc|]. cbn. unfold getenv. rewrite Es. cbn.
        now rewrite Ee.
      * apply split_comma_no_comma.
      * apply join_split_comma.
  - exists ["lad"%string]. split; [|now repeat split].
    apply merge_lookup_own; [exact Hc|]. cbn. unfold getenv. now rewrite Es.
Qed.

(** X15: between the shared configuration and the constructor's own
    table the table wins: for each of its seventeen keys the caller does
    not give, the instance has the table's value whatever
    [sharedConfig('WEB')] holds there; for every other key the caller does
    not give, it has the shared value. *)
Theorem own_defaults_shadow_shared_config P config k :
  config !! k = None ->
  (In k own_keys ->
   is_Some (own_defaults P !! k)
   /\ merge_config P config !! k = own_defaults P !! k)
  /\ (~ In k own_keys ->
      merge_config P config !! k = sharedConfig P "WEB" !! k).
Proof.
  intros Hc. unfold merge_config. rewrite lookup_union_r by exact Hc. split.
  - intros Hk.
    assert (Hs : is_Some (own_defaults P !! k)).
    { unfold own_keys in Hk. cbn in Hk.
      repeat (destruct Hk as [<-|Hk]; [eexists; reflexivity|]). contradiction. }
    split; [exact Hs|]. destruct Hs as [v Hv].
    now rewrite (lookup_union_Some_l _ _ _ _ Hv).
  - intros Hk. apply lookup_union_r, not_elem_of_list_to_map_1.
    rewrite list_elem_of_In. exact Hk.
Qed.

(** ** The getter of the default [methodOverride] *)

(** X16: the default getter returns the [_method] of the request body
    when that is a non-empty string and [undefined] in every other case
    where the body is there; it never returns anything but a non-empty
    string or [undefined]; and it throws a [TypeError] when the request has
    no body. *)
Theorem body_method_returns_nonempty_strings_only (request : value) :
  (forall body s, get_prop request "body" = Ok body ->
     get_prop body "_method" = Ok (VStr s) -> s <> ""%string ->
     body_method request = Ok (VStr s))
  /\ (forall v, body_method request = Ok v ->
        v = VUndefined
        \/ exists s, v = VStr s /\ s <> ""%string
                     /\ prop (prop request "body") "_method" = VStr s)
  /\ (nullish request || nullish (prop request "body") = true ->
      exists msg, body_method request = Throw (TypeError msg)).
Proof.
  split; [|split].
  - intros body s Hb Hm Hs. unfold body_method. rewrite Hb, Hm. cbn.
    apply String.eqb_neq in Hs. now rewrite Hs.
  - intros v H. unfold body_method in H.
    destruct (get_prop request "body") as [body|] eqn:Hb; [|discriminate].
    destruct (get_prop body "_method") as [m|] eqn:Hm; [|discriminate].
    injection H as <-. rewrite (prop_ok _ _ _ Hb), (prop_ok _ _ _ Hm).
    destruct m; cbn; try (left; reflexivity); try (rewrite andb_false_r; now left).
    destruct (String.eqb s "") eqn:E; cbn; [now left|].
    right. exists s. apply String.eqb_neq in E. repeat split; assumption.
  - intros H. unfold body_method, prop in *.
    destruct request; cbn in *; try discriminate; try (eexists; reflexivity).
    destruct (o !! "body"%string) as [[]|]; cbn in *; try discriminate;
      eexists; reflexivity.
Qed.

(** ** The configuration after construction *)



(** ** [listen] after [close] *)

(** X18: [close] leaves the server listening, so once an instance has
    listened, every later [listen] on it, on whatever port and host, is
    rejected with [ERR_SERVER_ALREADY_LISTEN], also after [close]. *)
Theorem no_listen_again_after_close P w (p : Z) host n n1 :
  (0 < p < 65536)%Z ->
  listen P w (VNum p) host n = Ok (tt, n1) ->
  exists n2, close w n1 = Ok (tt, n2)
    /\ forall port' host',
         listen P w port' host' n2 = Throw (system_error "ERR_SERVER_ALREADY_LISTEN").
Proof.
  intros Hp Hl. destruct (listen_inv _ _ _ _ _ _ Hp Hl) as (_ & _ & ->).
  eexists. split; [reflexivity|]. intros port' host'.
  unfold listen, await, js_bind, promisify, server_listen.
  now rewrite lookup_insert_eq.
Qed.

(** ** The added theorems at work *)

Lemma production_web_built : constructor production 0 ∅ = Ok production_web.
Proof. vm_compute. reflexivity. Qed.

Lemma constructor_pipeline_witness :
  app_middleware (web_app production_web)
  = pipeline_of production (merge_config production ∅)
  /\ srv_handler (web_server production_web)
     = pipeline_of production (merge_config production ∅).
Proof.
  exact (constructor_pipeline production 0 ∅ production_web production_web_built).
Defined.

Lemma package_middleware_in_source_order_witness :
  ((2 < 16)%nat <-> (position RequestId < position (Session (session_options (merge_config production ∅))))%nat)
  /\ (position RequestId = position (Session (session_options (merge_config production ∅)))
      -> 2%nat = 16%nat).
Proof.
  exact (package_middleware_in_source_order production 0 ∅ production_web 2 16
           RequestId (Session (session_options (merge_config production ∅)))
           production_web_built
           ltac:(vm_compute; reflexivity) ltac:(vm_compute; reflexivity)
           eq_refl eq_refl).
Defined.

Lemma pipeline_first_and_last_witness :
  let pipeline := app_middleware (web_app production_web) in
  pipeline !! 0%nat = Some RequestReceived
  /\ In Koa404Handler pipeline
  /\ forall (i j : nat) y,
       pipeline !! i = Some Koa404Handler -> (i < j)%nat ->
       pipeline !! j = Some y -> is_custom y = true.
Proof.
  exact (pipeline_first_and_last production 0 ∅ production_web production_web_built).
Defined.

Lemma application_settings_witness :
  let cfg := merge_config production ∅ in
  app_keys (web_app production_web) = cfg_get cfg "sessionKeys"
  /\ app_proxy (web_app production_web) = boolean production (getenv production "TRUST_PROXY")
  /\ app_cache (web_app production_web)
     = boolean production (prop (prop (cfg_get cfg "views") "locals") "cache").
Proof.
  exact (application_settings production 0 ∅ production_web production_web_built).
Defined.

Lemma views_without_locals_is_rejected_witness :
  exists msg,
    constructor production 0 {["views" := obj [("root", VStr "/srv/views")]]}
    = Throw (TypeError msg).
Proof.
  apply (views_without_locals_is_rejected production 0
           {["views" := obj [("root", VStr "/srv/views")]]}).
  vm_compute. reflexivity.
Defined.


Lemma routes_must_yield_a_function_witness :
  exists e,
    constructor production 0
      {["routes" := obj [("routes", VFun (Closure "routes" [] (VStr "not a router")))]]}
    = Throw e.
Proof.
  apply (routes_must_yield_a_function production 0
           {["routes" := obj [("routes", VFun (Closure "routes" [] (VStr "not a router")))]]}).
  - vm_compute. reflexivity.
  - vm_compute. reflexivity.
Defined.

Lemma passport_must_yield_two_functions_witness :
  exists e,
    constructor production 0
      {["passport" :=
          obj [("initialize",
                VFun (Closure "initialize" [] (VFun (Closure "mw" [] VUndefined))))]]}
    = Throw e.
Proof.
  apply (passport_must_yield_two_functions production 0
           {["passport" :=
               obj [("initialize",
                     VFun (Closure "initialize" [] (VFun (Closure "mw" [] VUndefined))))]]}).
  - vm_compute. reflexivity.
  - vm_compute. lia.
Defined.


Lemma csrf_guard_validates_and_rewraps_witness :
  let cfg := merge_config production ∅ in
  let c := mk_ctx "/login" None in
  let outcome := csrf_run production (csrf_options cfg) c in
  fst (csrf_guard production cfg c) = [CallCsrf (csrf_options cfg)]
  /\ (forall u, outcome = Ok u -> snd (csrf_guard production cfg c) = Ok u)
  /\ (forall err, outcome = Throw err ->
        err_name err = "ForbiddenError"%string ->
        exists b, snd (csrf_guard production cfg c) = Throw (ctx_throw production b)
          /\ err_boom b = Some 403
          /\ err_status b = None
          /\ err_message b = err_message err
          /\ forall st, err_stack err = Some st -> st <> ""%string ->
                        err_stack b = Some st)
  /\ (forall err, outcome = Throw err ->
        err_name err <> "ForbiddenError"%string ->
        snd (csrf_guard production cfg c) = Throw (ctx_throw production err)).
Proof.
  apply (csrf_guard_validates_and_rewraps production (merge_config production ∅)
           (mk_ctx "/login" None)).
  vm_compute. reflexivity.
Defined.

Lemma default_session_keys_witness :
  let P := node_platform {["SESSION_KEYS" := "alpha,beta"]} in
  exists keys,
    cfg_get (merge_config P ∅) "sessionKeys" = VArr (map VStr keys)
    /\ keys <> []
    /\ Forall (fun w => has_comma w = false) keys
    /\ match env P !! "SESSION_KEYS"%string with
       | Some s => if String.eqb s "" then keys = ["lad"%string]
                   else join_comma keys = s
       | None => keys = ["lad"%string]
       end.
Proof.
  exact (default_session_keys (node_platform {["SESSION_KEYS" := "alpha,beta"]}) ∅
           eq_refl).
Defined.

Lemma own_defaults_shadow_shared_config_witness :
  (In "helmet"%string own_keys ->
   is_Some (own_defaults production !! "helmet"%string)
   /\ merge_config production ∅ !! "helmet"%string
      = own_defaults production !! "helmet"%string)
  /\ (~ In "helmet"%string own_keys ->
      merge_config production ∅ !! "helmet"%string
      = sharedConfig production "WEB" !! "helmet"%string).
Proof.
  exact (own_defaults_shadow_shared_config production ∅ "helmet" eq_refl).
Defined.


Lemma no_listen_again_after_close_witness :
  exists n2, close production_web {[0%nat := 3000]} = Ok (tt, n2)
    /\ forall port' host',
         listen production production_web port' host' n2
         = Throw (system_error "ERR_SERVER_ALREADY_LISTEN").
Proof.
  apply (no_listen_again_after_close production production_web 3000 VUndefined ∅
           {[0%nat := 3000]}).
  - lia.
  - vm_compute. reflexivity.
Defined.

(** ** [listen] and its default arguments *)

(** X19: called without a port, [listen] binds [config.port]; called
    with one, it binds that port and ignores [config.port]; in both cases
    the bindings of the other servers stay as they were. *)
Theorem listen_defaults_to_config_port P w (p q : Z) host n :
  cfg_get (web_config w) "port" = VNum p ->
  (0 < p < 65536)%Z -> (0 < q < 65536)%Z ->
  n !! srv_id (web_server w) = None ->
  (port_in_use n p = false ->
   listen P w VUndefined host n = Ok (tt, <[srv_id (web_server w) := p]> n))
  /\ (port_in_use n q = false ->
      listen P w (VNum q) host n = Ok (tt, <[srv_id (web_server w) := q]> n))
  /\ (forall n' other, listen P w (VNum q) host n = Ok (tt, n') ->
        other <> srv_id (web_server w) -> n' !! other = n !! other).
Proof.
  intros Hc Hp Hq Hn.
  assert (Hport : forall r, (0 < r < 65536)%Z -> port_of_value (VNum r) = Ok (Some r)).
  { intros r Hr. cbn.
    assert (Z.eqb r 0 = false) as -> by lia.
    assert (Z.ltb 0 r && Z.ltb r 65536 = true) as -> by lia. reflexivity. }
  split; [|split].
  - intros Hfree. unfold listen, await, js_bind, promisify, server_listen.
    rewrite Hc, Hn. cbn [fst]. now rewrite (Hport p Hp), Hfree.
  - intros Hfree. unfold listen, await, js_bind, promisify, server_listen.
    rewrite Hn. cbn [fst]. now rewrite (Hport q Hq), Hfree.
  - intros n' other Hl Ho.
    destruct (listen_inv _ _ _ _ _ _ Hq Hl) as (_ & _ & ->).
    now apply lookup_insert_ne.
Qed.

Lemma listen_defaults_to_config_port_witness :
  (port_in_use ∅ 3000 = false ->
   listen production production_web VUndefined VUndefined ∅
   = Ok (tt, <[srv_id (web_server production_web) := 3000]> ∅))
  /\ (port_in_use ∅ 8080 = false ->
      listen production production_web (VNum 8080) VUndefined ∅
      = Ok (tt, <[srv_id (web_server production_web) := 8080]> ∅))
  /\ (forall n' other,
        listen production production_web (VNum 8080) VUndefined ∅ = Ok (tt, n') ->
        other <> srv_id (web_server production_web) ->
        n' !! other = (∅ : gmap nat Z) !! other).
Proof.
  apply (listen_defaults_to_config_port production production_web 3000 8080
           VUndefined ∅).
  - vm_compute. reflexivity.
  - lia.
  - lia.
  - reflexivity.
Defined.

(** ** Merging twice *)

(** X20: merging is idempotent and keeps every key of the caller: a
    merged configuration handed to the merge again comes back unchanged. *)
Theorem merge_config_idempotent P config :
  merge_config P (merge_config P config) = merge_config P config
  /\ forall k, is_Some (config !! k) -> is_Some (merge_config P config !! k).
Proof.
  split.
  - unfold merge_config.
    rewrite <- (assoc_L (∪) config (own_defaults P ∪ sharedConfig P "WEB")
                        (own_defaults P ∪ sharedConfig P "WEB")).
    now rewrite (idemp_L (∪) (own_defaults P ∪ sharedConfig P "WEB")).
  - intros k [v Hv]. exists v. unfold merge_config. now apply lookup_union_Some_l.
Qed.
